(** * Trace-context propagation codecs (propagation.go)

    A shallow embedding of the three propagators of package
    [standardtracer]: [splitTextPropagator], [splitBinaryPropagator] and
    [goHTTPPropagator], together with the parts of the Go standard library
    they call ([encoding/binary], [bytes.Reader], [strconv], [strings],
    [encoding/base64], [net/http.Header]).

    Conventions of the embedding:
    - a Go [int64]/[int32]/[byte] is a [Z] in the range of its type, with
      conversions written out; a [[]byte] is a [list byte]; a Go [string] is
      a [string] (a sequence of 8-bit characters);
    - a [map[string]string] that is shared between objects (the attribute
      map of a context, the [TraceAttributes] of a text carrier) lives in a
      store of maps and is referred to by its address;
    - [for k, v := range m] visits the entries of [m] in an order chosen by
      the runtime: the order is a parameter of the embedding ([rangeOrder]),
      and the theorems hold for every order;
    - a call returns a value, returns an error, or panics ([outcome]). *)

From Stdlib Require Import ZArith Lia Ascii String DecimalString DecimalZ.
From Stdlib.Strings Require Import Byte.
From stdpp Require Import gmap strings list fin_maps.

Local Open Scope Z_scope.

(** ** Bytes and fixed-width integers *)

Definition byte_of_Z (z : Z) : byte :=
  default x00 (Byte.of_N (Z.to_N (z mod 256))).

Definition Z_of_byte (b : byte) : Z := Z.of_N (Byte.to_N b).

(** [uintN w z] is the Go conversion of [z] to the unsigned type of [w]
    bits and [intN w z] the conversion to the signed one. *)
Definition uintN (w : Z) (z : Z) : Z := z mod 2 ^ w.

Definition intN (w : Z) (z : Z) : Z :=
  let u := z mod 2 ^ w in
  if u <? 2 ^ (w - 1) then u else u - 2 ^ w.

Definition is_intN (w : Z) (z : Z) : Prop := - 2 ^ (w - 1) <= z < 2 ^ (w - 1).

(** ** encoding/binary, big endian *)

Module binary.

(** [BigEndian.PutUint16/32/64]: byte [i] of [n] is [byte(v >> 8*(n-1-i))]. *)
Fixpoint put (n : nat) (v : Z) : list byte :=
  match n with
  | O => []
  | S k => byte_of_Z (Z.shiftr v (8 * Z.of_nat k)) :: put k v
  end.

(** [BigEndian.Uint16/32/64]: [b[n-1] | b[n-2]<<8 | ...]. *)
Definition get (bs : list byte) : Z :=
  fold_left (fun acc b => Z.lor (Z.shiftl acc 8) (Z_of_byte b)) bs 0.

(** [binary.Write(buf, BigEndian, x)] into a [bytes.Buffer] appends the
    encoding of [x] and cannot fail; these are the encodings. *)
Definition write_int64 (x : Z) : list byte := put 8 (uintN 64 x).
Definition write_int32 (x : Z) : list byte := put 4 (uintN 32 x).
Definition write_uint8 (x : Z) : list byte := put 1 (uintN 8 x).
Definition write_bytes (bs : list byte) : list byte := bs.

(** A [bytes.Reader] is the bytes not yet read. [io.ReadFull] of [n]
    bytes fails ([io.EOF] or [io.ErrUnexpectedEOF]) when fewer than [n]
    remain, and reading no byte always succeeds. *)
Definition Reader := list byte.

Definition ReadFull (n : nat) (r : Reader) : option (list byte * Reader) :=
  if decide (n <= length r)%nat then Some (take n r, drop n r) else None.

(** [binary.Read(r, BigEndian, &x)]: [None] is a non-nil error. *)
Definition read_int64 (r : Reader) : option (Z * Reader) :=
  '(bs, r') ← ReadFull 8 r; Some (intN 64 (get bs), r').
Definition read_int32 (r : Reader) : option (Z * Reader) :=
  '(bs, r') ← ReadFull 4 r; Some (intN 32 (get bs), r').
Definition read_uint8 (r : Reader) : option (Z * Reader) :=
  '(bs, r') ← ReadFull 1 r; Some (get bs, r').
(** [binary.Read(r, BigEndian, &buf)] for [buf] a slice of [n] bytes. *)
Definition read_bytes (n : nat) (r : Reader) : option (list byte * Reader) :=
  ReadFull n r.

End binary.

(** *** Facts about the byte codec *)

Lemma Z_of_byte_range (b : byte) : 0 <= Z_of_byte b < 256.
Proof.
  unfold Z_of_byte. pose proof (Byte.to_N_bounded b) as Hb.
  change 256 with (Z.of_N 256). lia.
Qed.

Lemma Z_of_byte_of_Z (z : Z) : Z_of_byte (byte_of_Z z) = z mod 256.
Proof.
  unfold Z_of_byte, byte_of_Z.
  assert (Hr : 0 <= z mod 256 < 256) by (apply Z.mod_pos_bound; lia).
  destruct (Byte.of_N (Z.to_N (z mod 256))) as [b|] eqn:E.
  - apply Byte.to_of_N in E. simpl. rewrite E. lia.
  - apply Byte.of_N_None_iff in E. lia.
Qed.

Lemma byte_of_Z_of_byte (b : byte) : byte_of_Z (Z_of_byte b) = b.
Proof.
  unfold byte_of_Z. pose proof (Z_of_byte_range b) as Hr.
  rewrite Z.mod_small by lia. unfold Z_of_byte.
  rewrite N2Z.id, Byte.of_to_N. reflexivity.
Qed.

Lemma lor_mul_pow2 (a b k : Z) :
  0 <= k -> 0 <= b < 2 ^ k -> Z.lor (a * 2 ^ k) b = a * 2 ^ k + b.
Proof.
  intros Hk Hb.
  rewrite <- Z.lxor_lor, <- Z.add_nocarry_lxor; try reflexivity.
  all: apply Z.bits_inj'; intros n Hn; rewrite Z.land_spec, Z.bits_0.
  all: destruct (Z.lt_ge_cases n k) as [Hlt|Hge].
  all: try (rewrite Z.mul_pow2_bits_low by lia; reflexivity).
  all: destruct (Z.eq_dec b 0) as [->|Hne]; [rewrite Z.bits_0; apply andb_false_r|].
  all: rewrite (Z.bits_above_log2 b n), andb_false_r; try reflexivity; try lia.
  all: apply Z.log2_lt_pow2; [lia|].
  all: eapply Z.lt_le_trans with (m := 2 ^ k); [lia|].
  all: apply Z.pow_le_mono_r; lia.
Qed.

Lemma lor_shiftl8 (a b : Z) : 0 <= b < 256 -> Z.lor (Z.shiftl a 8) b = a * 256 + b.
Proof.
  intros Hb. rewrite Z.shiftl_mul_pow2 by lia.
  rewrite lor_mul_pow2; change (2 ^ 8) with 256; lia.
Qed.

Lemma binary_get_put_acc (n : nat) (v acc : Z) :
  fold_left (fun acc b => Z.lor (Z.shiftl acc 8) (Z_of_byte b)) (binary.put n v) acc
  = acc * 2 ^ (8 * Z.of_nat n) + v mod 2 ^ (8 * Z.of_nat n).
Proof.
  revert acc. induction n as [|k IH]; intros acc.
  - simpl. rewrite Z.mod_1_r. lia.
  - cbn [binary.put fold_left]. rewrite IH.
    rewrite lor_shiftl8 by apply Z_of_byte_range.
    rewrite Z_of_byte_of_Z, Z.shiftr_div_pow2 by lia.
    replace (8 * Z.of_nat (S k)) with (8 * Z.of_nat k + 8) by lia.
    rewrite (Z.pow_add_r 2 (8 * Z.of_nat k) 8) by lia.
    rewrite (Z.rem_mul_r v (2 ^ (8 * Z.of_nat k)) (2 ^ 8)) by lia.
    change (2 ^ 8) with 256. ring.
Qed.

Lemma binary_get_put (n : nat) (v : Z) :
  binary.get (binary.put n v) = v mod 2 ^ (8 * Z.of_nat n).
Proof. unfold binary.get. rewrite binary_get_put_acc. lia. Qed.

Lemma binary_put_length (n : nat) (v : Z) : length (binary.put n v) = n.
Proof. induction n; simpl; congruence. Qed.

Lemma intN_uintN (w z : Z) : 0 < w -> is_intN w z -> intN w (uintN w z) = z.
Proof.
  intros Hw [Hlo Hhi]. unfold intN, uintN.
  assert (Hp : 2 ^ w = 2 * 2 ^ (w - 1)).
  { rewrite <- Z.pow_succ_r by lia. f_equal. lia. }
  assert (Hpos : 0 < 2 ^ (w - 1)) by (apply Z.pow_pos_nonneg; lia).
  rewrite Z.mod_mod by lia.
  destruct (Z.lt_ge_cases z 0) as [Hneg|Hnn].
  - assert (E : z mod 2 ^ w = z + 2 ^ w).
    { symmetry. apply Z.mod_unique with (q := -1); lia. }
    rewrite E. destruct (Z.ltb_spec (z + 2 ^ w) (2 ^ (w - 1))); lia.
  - rewrite Z.mod_small by lia.
    destruct (Z.ltb_spec z (2 ^ (w - 1))); lia.
Qed.

Lemma intN_range (w z : Z) : 0 < w -> is_intN w (intN w z).
Proof.
  intros Hw. unfold intN, is_intN.
  assert (Hp : 2 ^ w = 2 * 2 ^ (w - 1)).
  { rewrite <- Z.pow_succ_r by lia. f_equal. lia. }
  assert (Hpos : 0 < 2 ^ (w - 1)) by (apply Z.pow_pos_nonneg; lia).
  pose proof (Z.mod_pos_bound z (2 ^ w) ltac:(lia)).
  destruct (Z.ltb_spec (z mod 2 ^ w) (2 ^ (w - 1))); lia.
Qed.

(** ** The parts of the Go runtime the code leaves open

    Three behaviours the propagators rely on are fixed by the Go runtime,
    not by propagation.go, and are kept as parameters of the embedding. *)
Class GoRuntime := {
  (** the order in which [for k, v := range m] visits the entries of [m] *)
  rangeOrder : gmap string string -> list (string * string);
  rangeOrder_perm : forall m, rangeOrder m ≡ₚ map_to_list m;
  (** [strings.Map(unicode.ToLower, s)], which [strings.ToLower] applies to
      a string that has a byte outside ASCII *)
  unicodeToLower : string -> string;
  (** whether [make(map[string]string, n)] panics for [n < 0] (releases
      before Go 1.10 do, later ones take the hint as 0) *)
  makemapPanicsOnNegativeHint : bool
}.

(** ** strconv, fmt and strings *)

Definition code (c : ascii) : Z := Z.of_N (N_of_ascii c).

Module strconv.

Definition FormatInt (i : Z) : string := NilZero.string_of_int (Z.to_int i).

Definition FormatBool (b : bool) : string :=
  if b then "true"%string else "false"%string.

Definition digit (c : ascii) : option Z :=
  if (48 <=? code c) && (code c <=? 57) then Some (code c - 48) else None.

Fixpoint digits (s : string) (acc : Z) : option Z :=
  match s with
  | EmptyString => Some acc
  | String c s' => d ← digit c; digits s' (acc * 10 + d)
  end.

(** [ParseInt(s, 10, 64)]: an optional sign, then one or more decimal
    digits, the value in the range of int64. [None] is a non-nil error
    (syntax or range). *)
Definition ParseInt (s : string) : option Z :=
  match s with
  | EmptyString => None
  | String c rest =>
      let '(neg, body) :=
        if Ascii.eqb c "+" then (false, rest)
        else if Ascii.eqb c "-" then (true, rest)
        else (false, s) in
      match body with
      | EmptyString => None
      | _ =>
          un ← digits body 0;
          if neg then (if 2 ^ 63 <? un then None else Some (- un))
          else (if 2 ^ 63 <=? un then None else Some un)
      end
  end.

Definition ParseBool (s : string) : option bool :=
  if bool_decide (s ∈ ["1"; "t"; "T"; "TRUE"; "true"; "True"]%string) then Some true
  else if bool_decide (s ∈ ["0"; "f"; "F"; "FALSE"; "false"; "False"]%string) then Some false
  else None.

End strconv.

Module strings.

Definition isASCII (s : string) : bool :=
  forallb (fun c => code c <? 128) (list_ascii_of_string s).

Definition lowerByte (c : ascii) : ascii :=
  if (65 <=? code c) && (code c <=? 90)
  then ascii_of_N (Z.to_N (code c + 32)) else c.

Fixpoint mapBytes (f : ascii -> ascii) (s : string) : string :=
  match s with
  | EmptyString => EmptyString
  | String c s' => String (f c) (mapBytes f s')
  end.

(** [strings.ToLower]: an ASCII-only string has its bytes ['A'..'Z']
    shifted to lower case, any other string goes through the Unicode
    tables. *)
Definition ToLower `{GoRuntime} (s : string) : string :=
  if isASCII s then mapBytes lowerByte s else unicodeToLower s.

End strings.

(** ** encoding/base64, [StdEncoding] (RFC 4648 alphabet, padded, not strict) *)

Module base64.

Definition encodeStd : list ascii :=
  list_ascii_of_string
    "ABCDEFGHIJKLMNOPQRSTUVWXYZabcdefghijklmnopqrstuvwxyz0123456789+/".

Definition padChar : ascii := "="%char.

Definition encodeChar (v : Z) : ascii :=
  nth (Z.to_nat v) encodeStd padChar.

(** [decodeMap[c]]: the index of [c] in the alphabet, [None] for 0xff. *)
Definition decodeChar (c : ascii) : option Z :=
  (fun p => Z.of_nat p.1) <$> list_find (fun a => a = c) encodeStd.

Definition sextet (val : Z) (i : Z) : ascii :=
  encodeChar (Z.land (Z.shiftr val i) 63).

Fixpoint encode (src : list byte) : list ascii :=
  match src with
  | [] => []
  | [a] =>
      let val := Z.shiftl (Z_of_byte a) 16 in
      [sextet val 18; sextet val 12; padChar; padChar]
  | [a; b] =>
      let val := Z.lor (Z.shiftl (Z_of_byte a) 16) (Z.shiftl (Z_of_byte b) 8) in
      [sextet val 18; sextet val 12; sextet val 6; padChar]
  | a :: b :: c :: rest =>
      let val := Z.lor (Z.lor (Z.shiftl (Z_of_byte a) 16)
                              (Z.shiftl (Z_of_byte b) 8)) (Z_of_byte c) in
      sextet val 18 :: sextet val 12 :: sextet val 6 :: sextet val 0
        :: encode rest
  end.

Definition EncodeToString (src : list byte) : string :=
  string_of_list_ascii (encode src).

Definition isNewline (c : ascii) : bool :=
  Ascii.eqb c "010" || Ascii.eqb c "013".

Fixpoint skipNewlines (src : list ascii) : list ascii :=
  match src with
  | c :: rest => if isNewline c then skipNewlines rest else src
  | [] => []
  end.

(** The quantum [dbuf] (most significant sextet first, missing ones
    zero) as a 24-bit value, and its first [n] bytes. *)
Definition quantum (dbuf : list Z) : Z :=
  fold_left (fun acc i => Z.lor acc (Z.shiftl (nth i dbuf 0) (18 - 6 * Z.of_nat i)))
            (seq 0 4) 0.

Global Arguments quantum : simpl never.

Definition quantumBytes (dbuf : list Z) (n : nat) : list byte :=
  take n [byte_of_Z (Z.shiftr (quantum dbuf) 16);
          byte_of_Z (Z.shiftr (quantum dbuf) 8);
          byte_of_Z (quantum dbuf)].

(** [decode src dbuf]: [dbuf] holds the sextets of the quantum being
    read. Newlines are skipped anywhere; padding is accepted only after
    two or three sextets, complete, and followed by nothing but newlines;
    the input may not end inside a quantum. *)
Fixpoint decode (src : list ascii) (dbuf : list Z) : option (list byte) :=
  match src with
  | [] => match dbuf with [] => Some [] | _ => None end
  | c :: rest =>
      match decodeChar c with
      | Some v =>
          if decide (length dbuf = 3%nat)
          then (quantumBytes (dbuf ++ [v]) 3 ++.) <$> decode rest []
          else decode rest (dbuf ++ [v])
      | None =>
          if isNewline c then decode rest dbuf
          else if Ascii.eqb c padChar then
            match length dbuf with
            | 2%nat =>
                match skipNewlines rest with
                | c' :: rest' =>
                    if Ascii.eqb c' padChar
                    then match skipNewlines rest' with
                         | [] => Some (quantumBytes dbuf 1)
                         | _ => None
                         end
                    else None
                | [] => None
                end
            | 3%nat =>
                match skipNewlines rest with
                | [] => Some (quantumBytes dbuf 2)
                | _ => None
                end
            | _ => None
            end
          else None
      end
  end.

(** [StdEncoding.DecodeString]: [None] is a [CorruptInputError]. *)
Definition DecodeString (s : string) : option (list byte) :=
  decode (list_ascii_of_string s) [].

End base64.

(** *** Facts about base64 *)

Ltac zpow :=
  repeat match goal with
         | |- context [2 ^ (Zpos ?p)] =>
             let v := eval vm_compute in (2 ^ (Zpos p)) in
             change (2 ^ (Zpos p)) with v
         | |- context [2 ^ 0] => change (2 ^ 0) with 1
         end.

Ltac zpow_hyp H :=
  repeat match type of H with
         | context [2 ^ (Zpos ?p)] =>
             let v := eval vm_compute in (2 ^ (Zpos p)) in
             change (2 ^ (Zpos p)) with v in H
         end.

Lemma base64_val3 (a b c : Z) :
  0 <= a < 256 -> 0 <= b < 256 -> 0 <= c < 256 ->
  Z.lor (Z.lor (Z.shiftl a 16) (Z.shiftl b 8)) c = a * 65536 + b * 256 + c.
Proof.
  intros Ha Hb Hc. rewrite !Z.shiftl_mul_pow2 by lia.
  rewrite (lor_mul_pow2 a (b * 2 ^ 8) 16) by (zpow; lia).
  replace (a * 2 ^ 16 + b * 2 ^ 8) with ((a * 256 + b) * 2 ^ 8) by (zpow; lia).
  rewrite lor_mul_pow2 by (zpow; lia). zpow; lia.
Qed.

Lemma base64_quantum4 (s0 s1 s2 s3 : Z) :
  0 <= s0 < 64 -> 0 <= s1 < 64 -> 0 <= s2 < 64 -> 0 <= s3 < 64 ->
  base64.quantum [s0; s1; s2; s3] = s0 * 262144 + s1 * 4096 + s2 * 64 + s3.
Proof.
  intros H0 H1 H2 H3. unfold base64.quantum. cbn [seq fold_left nth].
  change (18 - 6 * Z.of_nat 0) with 18. change (18 - 6 * Z.of_nat 1) with 12.
  change (18 - 6 * Z.of_nat 2) with 6. change (18 - 6 * Z.of_nat 3) with 0.
  rewrite !Z.shiftl_mul_pow2 by lia. rewrite Z.lor_0_l.
  rewrite (lor_mul_pow2 s0 (s1 * 2 ^ 12) 18) by (zpow; lia).
  replace (s0 * 2 ^ 18 + s1 * 2 ^ 12) with ((s0 * 64 + s1) * 2 ^ 12) by (zpow; lia).
  rewrite (lor_mul_pow2 _ (s2 * 2 ^ 6) 12) by (zpow; lia).
  replace ((s0 * 64 + s1) * 2 ^ 12 + s2 * 2 ^ 6)
    with ((s0 * 4096 + s1 * 64 + s2) * 2 ^ 6) by (zpow; lia).
  rewrite (lor_mul_pow2 _ (s3 * 2 ^ 0) 6) by (zpow; lia). zpow; lia.
Qed.

Lemma base64_sextet (val i : Z) :
  0 <= i -> base64.sextet val i = base64.encodeChar ((val / 2 ^ i) mod 64).
Proof.
  intros Hi. unfold base64.sextet. rewrite Z.shiftr_div_pow2 by lia.
  change 63 with (Z.ones 6). rewrite Z.land_ones by lia. reflexivity.
Qed.

Lemma base64_decodeChar_encodeChar (v : Z) :
  0 <= v < 64 -> base64.decodeChar (base64.encodeChar v) = Some v.
Proof.
  intros Hv. unfold base64.encodeChar.
  rewrite <- (Z2Nat.id v) at 2 by lia.
  assert (Hn : (Z.to_nat v < 64)%nat) by lia.
  generalize dependent (Z.to_nat v). clear Hv. intros n Hn.
  do 64 (destruct n as [|n]; [vm_compute; reflexivity|]). lia.
Qed.

Lemma base64_decode_quad (v0 v1 v2 v3 : Z) (rest : list ascii) :
  0 <= v0 < 64 -> 0 <= v1 < 64 -> 0 <= v2 < 64 -> 0 <= v3 < 64 ->
  base64.decode (base64.encodeChar v0 :: base64.encodeChar v1
                 :: base64.encodeChar v2 :: base64.encodeChar v3 :: rest) []
  = (base64.quantumBytes [v0; v1; v2; v3] 3 ++.) <$> base64.decode rest [].
Proof.
  intros H0 H1 H2 H3. cbn [base64.decode].
  rewrite !base64_decodeChar_encodeChar by assumption.
  reflexivity.
Qed.

Lemma list_ind3 {A} (P : list A -> Prop) :
  P [] -> (forall a, P [a]) -> (forall a b, P [a; b]) ->
  (forall a b c l, P l -> P (a :: b :: c :: l)) ->
  forall l, P l.
Proof.
  intros H0 H1 H2 H3 l.
  assert (H : P l /\ (forall a, P (a :: l)) /\ (forall a b, P (a :: b :: l))).
  { induction l as [|x l (IH0 & IH1 & IH2)]; [auto|].
    split; [apply IH1|]. split; [intros a; apply IH2|]. intros a b. apply H3, IH0. }
  apply H.
Qed.

Lemma byte_of_Z_eq (z : Z) (b : byte) : z mod 256 = Z_of_byte b -> byte_of_Z z = b.
Proof.
  intros H. rewrite <- (byte_of_Z_of_byte b). unfold byte_of_Z.
  rewrite H, (Z.mod_small (Z_of_byte b)) by apply Z_of_byte_range. reflexivity.
Qed.

Ltac bytes_eq :=
  f_equal; repeat (apply (f_equal2 cons); [apply byte_of_Z_eq|]); try reflexivity.

Lemma base64_decode_encode (bs : list byte) :
  base64.decode (base64.encode bs) [] = Some bs.
Proof.
  induction bs as [|a|a b|a b c l IH] using list_ind3.
  - reflexivity.
  - pose proof (Z_of_byte_range a) as Ha.
    cbn [base64.encode]. rewrite !base64_sextet by lia.
    rewrite Z.shiftl_mul_pow2 by lia.
    set (s0 := (_ / 2 ^ 18) mod 64). set (s1 := (_ / 2 ^ 12) mod 64).
    assert (0 <= s0 < 64) by (apply Z.mod_pos_bound; lia).
    assert (0 <= s1 < 64) by (apply Z.mod_pos_bound; lia).
    cbn [base64.decode]. rewrite !base64_decodeChar_encodeChar by assumption.
    cbn. unfold base64.quantumBytes. cbn [take].
    change (base64.quantum [s0; s1]) with (base64.quantum [s0; s1; 0; 0]).
    rewrite base64_quantum4 by lia.
    bytes_eq. rewrite Z.shiftr_div_pow2 by lia.
    subst s0 s1. revert Ha. generalize (Z_of_byte a). intros z Hz.
    zpow. Z.div_mod_to_equations. lia.
  - pose proof (Z_of_byte_range a) as Ha. pose proof (Z_of_byte_range b) as Hb.
    cbn [base64.encode]. rewrite !base64_sextet by lia.
    rewrite <- (Z.lor_0_r (Z.lor _ _)).
    rewrite base64_val3 by lia.
    set (s0 := (_ / 2 ^ 18) mod 64). set (s1 := (_ / 2 ^ 12) mod 64).
    set (s2 := (_ / 2 ^ 6) mod 64).
    assert (0 <= s0 < 64) by (apply Z.mod_pos_bound; lia).
    assert (0 <= s1 < 64) by (apply Z.mod_pos_bound; lia).
    assert (0 <= s2 < 64) by (apply Z.mod_pos_bound; lia).
    cbn [base64.decode]. rewrite !base64_decodeChar_encodeChar by assumption.
    cbn. unfold base64.quantumBytes. cbn [take].
    change (base64.quantum [s0; s1; s2]) with (base64.quantum [s0; s1; s2; 0]).
    rewrite base64_quantum4 by lia.
    bytes_eq.
    all: rewrite ?Z.shiftr_div_pow2 by lia.
    all: subst s0 s1 s2; revert Ha Hb.
    all: generalize (Z_of_byte a) (Z_of_byte b); intros x y Hx Hy.
    all: zpow; Z.div_mod_to_equations; lia.
  - pose proof (Z_of_byte_range a) as Ha. pose proof (Z_of_byte_range b) as Hb.
    pose proof (Z_of_byte_range c) as Hc.
    cbn [base64.encode]. rewrite !base64_sextet by lia.
    rewrite base64_val3 by lia.
    set (s0 := (_ / 2 ^ 18) mod 64). set (s1 := (_ / 2 ^ 12) mod 64).
    set (s2 := (_ / 2 ^ 6) mod 64). set (s3 := (_ / 2 ^ 0) mod 64).
    assert (0 <= s0 < 64) by (apply Z.mod_pos_bound; lia).
    assert (0 <= s1 < 64) by (apply Z.mod_pos_bound; lia).
    assert (0 <= s2 < 64) by (apply Z.mod_pos_bound; lia).
    assert (0 <= s3 < 64) by (apply Z.mod_pos_bound; lia).
    rewrite base64_decode_quad, IH by assumption.
    cbn. unfold base64.quantumBytes. cbn [take].
    rewrite base64_quantum4 by lia.
    bytes_eq.
    all: rewrite ?Z.shiftr_div_pow2 by lia.
    all: subst s0 s1 s2 s3; revert Ha Hb Hc.
    all: generalize (Z_of_byte a) (Z_of_byte b) (Z_of_byte c); intros x y z Hx Hy Hz.
    all: zpow; Z.div_mod_to_equations; lia.
Qed.

Lemma base64_DecodeString_EncodeToString (bs : list byte) :
  base64.DecodeString (base64.EncodeToString bs) = Some bs.
Proof.
  unfold base64.DecodeString, base64.EncodeToString.
  rewrite list_ascii_of_string_of_list_ascii. apply base64_decode_encode.
Qed.

(** ** net/http: [Header] *)

Module http.

Abbreviation Header := (gmap string (list string)) (only parsing).

(** [validHeaderFieldByte]: the token characters of RFC 7230. *)
Definition validHeaderFieldByte (c : ascii) : bool :=
  let n := code c in
  ((48 <=? n) && (n <=? 57)) || ((65 <=? n) && (n <=? 90))
  || ((97 <=? n) && (n <=? 122))
  || bool_decide (c ∈ list_ascii_of_string "!#$%&'*+-.^_`|~").

Definition upperByte (c : ascii) : ascii :=
  if (97 <=? code c) && (code c <=? 122)
  then ascii_of_N (Z.to_N (code c - 32)) else c.

Fixpoint canonical (upper : bool) (s : string) : string :=
  match s with
  | EmptyString => EmptyString
  | String c s' =>
      let c' := if upper then upperByte c else strings.lowerByte c in
      String c' (canonical (Ascii.eqb c' "-") s')
  end.

(** [http.CanonicalHeaderKey]: a key made of token characters gets an
    upper-case first letter and upper case after each dash, lower case
    elsewhere; any other key is returned as it is. *)
Definition CanonicalHeaderKey (s : string) : string :=
  if forallb validHeaderFieldByte (list_ascii_of_string s)
  then canonical true s else s.

(** [h.Add(key, value)] *)
Definition Add (h : Header) (key value : string) : Header :=
  let k := CanonicalHeaderKey key in
  <[k := default [] (h !! k) ++ [value]]> h.

End http.

(** ** Errors and outcomes of a call *)

Inductive error :=
| InvalidCarrier                (* opentracing.InvalidCarrier *)
| TraceCorrupted                (* opentracing.TraceCorrupted *)
| TraceNotFound                 (* opentracing.TraceNotFound *)
| Errorf (msg : string).        (* fmt.Errorf(...) *)

Inductive panic :=
| TypeAssertion                 (* x.(T) on a value of another dynamic type *)
| MakeSliceLen                  (* make([]byte, n) with n < 0 *)
| MakeMapSize.                  (* make(map[K]V, n) with n < 0, old runtimes *)

Inductive outcome (A : Type) :=
| Return (a : A)
| Fail (e : error)
| Panic (p : panic).
Arguments Return {A} a.
Arguments Fail {A} e.
Arguments Panic {A} p.

#[global] Instance outcome_ret : MRet outcome := @Return.
#[global] Instance outcome_bind : MBind outcome := fun A B f m =>
  match m with
  | Return a => f a
  | Fail e => Fail e
  | Panic p => Panic p
  end.

(** [if err != nil { return nil, opentracing.TraceCorrupted }] *)
Definition orCorrupted {A} (r : option A) : outcome A :=
  match r with Some a => Return a | None => Fail TraceCorrupted end.

(** ** Data model *)

(** Maps that are shared by reference live in a store. *)
Abbreviation addr := positive (only parsing).
Abbreviation store := (gmap addr (gmap string string)) (only parsing).

(** Reading through a reference; a nil map reads as the empty map. *)
Definition deref (σ : store) (a : addr) : gmap string string :=
  default ∅ (σ !! a).

Record StandardContext := {
  TraceID : Z;
  SpanID : Z;
  ParentSpanID : Z;
  Sampled : bool;
  traceAttrs : addr
}.

Module SplitTextCarrier.
Record t := {
  TracerState : gmap string string;
  TraceAttributes : addr
}.
End SplitTextCarrier.

Module SplitBinaryCarrier.
Record t := {
  TracerState : list byte;
  TraceAttributes : list byte
}.
End SplitBinaryCarrier.

(** [opentracing.NewSplitBinaryCarrier()] *)
Definition NewSplitBinaryCarrier : SplitBinaryCarrier.t :=
  {| SplitBinaryCarrier.TracerState := [];
     SplitBinaryCarrier.TraceAttributes := [] |}.

(** The dynamic type of a [carrier interface{}] argument. *)
Inductive carrier :=
| TextCarrier (c : SplitTextCarrier.t)       (* *opentracing.SplitTextCarrier *)
| BinaryCarrier (c : SplitBinaryCarrier.t)   (* *opentracing.SplitBinaryCarrier *)
| HTTPHeader (h : http.Header)               (* http.Header *)
| OtherCarrier.                              (* a value of any other type *)

Record Span := {
  Context : StandardContext;
  Operation : string;
  Start : Z;
  Tags : list (string * string)
}.

(** Modelled from the spec: [tracerImpl.startSpanInternal] is not defined
    in propagation.go. By the spec it is the context-construction
    collaborator [construct_child(context, operationName, startTime,
    extraTags)], which yields the child span that owns the given context. *)
Definition startSpanInternal (ctx : StandardContext) (operationName : string)
    (startTime : Z) (tags : list (string * string)) : Span :=
  {| Context := ctx; Operation := operationName; Start := startTime; Tags := tags |}.

Definition fieldNameTraceID : string := "traceid".
Definition fieldNameSpanID : string := "spanid".
Definition fieldNameSampled : string := "sampled".

Definition tracerStateHeaderName : string := "Tracer-State".
Definition traceAttrsHeaderName : string := "Trace-Attributes".

(** ** The propagators

    [InjectSpan] gets the context of the span, the carrier and the store,
    and yields its outcome with the carrier and the store as it leaves
    them. [JoinTrace] gets in addition the value [newID] that its call of
    [randomID()] returns and the time [now] that [time.Now()] returns. *)

Module splitTextPropagator.
Section with_runtime.
Context `{GoRuntime}.

Definition InjectSpan (sc : StandardContext) (c : carrier) (σ : store)
  : outcome unit * carrier * store :=
  match c with
  | TextCarrier _ =>
      let tracerState : gmap string string :=
        <[fieldNameSampled := strconv.FormatBool (Sampled sc)]>
          (<[fieldNameSpanID := strconv.FormatInt (SpanID sc)]>
             {[fieldNameTraceID := strconv.FormatInt (TraceID sc)]}) in
      (* make(map[string]string, len(sc.traceAttrs)), then the copy loop *)
      let a := fresh (dom σ) in
      let traceAttributes :=
        fold_left (fun m kv => <[kv.1 := kv.2]> m)
                  (rangeOrder (deref σ (traceAttrs sc))) ∅ in
      (Return (),
       TextCarrier {| SplitTextCarrier.TracerState := tracerState;
                      SplitTextCarrier.TraceAttributes := a |},
       <[a := traceAttributes]> σ)
  | _ => (Fail InvalidCarrier, c, σ)
  end.

(** The local variables of [JoinTrace]. *)
Record fields := {
  traceID : Z;
  propagatedSpanID : Z;
  sampled : bool;
  requiredFieldCount : Z
}.

(** One iteration of the loop over [TracerState]. *)
Definition field (st : fields) (kv : string * string) : outcome fields :=
  let '(k, v) := kv in
  let lk := strings.ToLower k in
  if String.eqb lk fieldNameTraceID then
    x ← orCorrupted (strconv.ParseInt v);
    Return {| traceID := x; propagatedSpanID := propagatedSpanID st;
              sampled := sampled st;
              requiredFieldCount := requiredFieldCount st + 1 |}
  else if String.eqb lk fieldNameSpanID then
    x ← orCorrupted (strconv.ParseInt v);
    Return {| traceID := traceID st; propagatedSpanID := x;
              sampled := sampled st;
              requiredFieldCount := requiredFieldCount st + 1 |}
  else if String.eqb lk fieldNameSampled then
    x ← orCorrupted (strconv.ParseBool v);
    Return {| traceID := traceID st; propagatedSpanID := propagatedSpanID st;
              sampled := x;
              requiredFieldCount := requiredFieldCount st + 1 |}
  else Fail (Errorf ("Unknown TracerState field: " +:+ k)).

Fixpoint scan (kvs : list (string * string)) (st : fields) : outcome fields :=
  match kvs with
  | [] => Return st
  | kv :: rest => st' ← field st kv; scan rest st'
  end.

Definition JoinTrace (operationName : string) (c : carrier)
    (newID now : Z) (σ : store) : outcome Span * store :=
  match c with
  | TextCarrier tc =>
      let found :=
        scan (rangeOrder (SplitTextCarrier.TracerState tc))
             {| traceID := 0; propagatedSpanID := 0; sampled := false;
                requiredFieldCount := 0 |} in
      (st ← found;
       if requiredFieldCount st <? 3 then
         Fail (Errorf ("Only found " +:+ strconv.FormatInt (requiredFieldCount st)
                         +:+ " of 3 required fields"))
       else
         Return (startSpanInternal
                   {| TraceID := traceID st;
                      SpanID := newID;
                      ParentSpanID := propagatedSpanID st;
                      Sampled := sampled st;
                      traceAttrs := SplitTextCarrier.TraceAttributes tc |}
                   operationName now []),
       σ)
  | _ => (Fail InvalidCarrier, σ)
  end.

End with_runtime.
End splitTextPropagator.

Module splitBinaryPropagator.
Section with_runtime.
Context `{GoRuntime}.

(** [len(x)] converted by [int32(...)] *)
Definition len32 (n : nat) : Z := intN 32 (Z.of_nat n).

(** The bytes one iteration of the attribute loop appends. *)
Definition writeAttr (kv : string * string) : list byte :=
  let keyBytes := list_byte_of_string kv.1 in
  let valBytes := list_byte_of_string kv.2 in
  binary.write_int32 (len32 (length keyBytes)) ++ binary.write_bytes keyBytes
  ++ binary.write_int32 (len32 (length valBytes)) ++ binary.write_bytes valBytes.

Definition InjectSpan (sc : StandardContext) (c : carrier) (σ : store)
  : outcome unit * carrier * store :=
  match c with
  | BinaryCarrier _ =>
      let sampledByte := if Sampled sc then 1 else 0 in
      let contextBuf :=
        binary.write_int64 (TraceID sc) ++ binary.write_int64 (SpanID sc)
        ++ binary.write_uint8 sampledByte in
      let attrs := deref σ (traceAttrs sc) in
      let attrsBuf :=
        binary.write_int32 (len32 (size attrs))
        ++ flat_map writeAttr (rangeOrder attrs) in
      (Return (),
       BinaryCarrier {| SplitBinaryCarrier.TracerState := contextBuf;
                        SplitBinaryCarrier.TraceAttributes := attrsBuf |},
       σ)
  | _ => (Fail InvalidCarrier, c, σ)
  end.

(** [make([]byte, n)] for an [int32] [n]: the length of the new slice. *)
Definition makeBytes (n : Z) : outcome nat :=
  if n <? 0 then Panic MakeSliceLen else Return (Z.to_nat n).

(** [make(map[string]string, n)] *)
Definition makeMap (n : Z) : outcome (gmap string string) :=
  if (n <? 0) && makemapPanicsOnNegativeHint then Panic MakeMapSize
  else Return ∅.

(** The loop [for i := 0; i < iNumAttrs; i++], with [n] iterations left. *)
Fixpoint readAttrs (n : nat) (r : binary.Reader) (attrMap : gmap string string)
  : outcome (gmap string string) :=
  match n with
  | O => Return attrMap
  | S n' =>
      '(keyLen, r) ← orCorrupted (binary.read_int32 r);
      nk ← makeBytes keyLen;
      '(keyBytes, r) ← orCorrupted (binary.read_bytes nk r);
      '(valLen, r) ← orCorrupted (binary.read_int32 r);
      nv ← makeBytes valLen;
      '(valBytes, r) ← orCorrupted (binary.read_bytes nv r);
      readAttrs n' r
        (<[string_of_list_byte keyBytes := string_of_list_byte valBytes]> attrMap)
  end.

(** The context fields and the attribute map read from the two buffers. *)
Definition decode (bc : SplitBinaryCarrier.t)
  : outcome (Z * Z * Z * gmap string string) :=
  let contextReader := SplitBinaryCarrier.TracerState bc in
  '(traceID, contextReader) ← orCorrupted (binary.read_int64 contextReader);
  '(propagatedSpanID, contextReader) ← orCorrupted (binary.read_int64 contextReader);
  '(sampledByte, contextReader) ← orCorrupted (binary.read_uint8 contextReader);
  let attrsReader := SplitBinaryCarrier.TraceAttributes bc in
  '(numAttrs, attrsReader) ← orCorrupted (binary.read_int32 attrsReader);
  attrMap ← makeMap numAttrs;
  attrMap ← readAttrs (Z.to_nat numAttrs) attrsReader attrMap;
  Return (traceID, propagatedSpanID, sampledByte, attrMap).

(** The new attribute map is put in the store when the context that
    refers to it is built; before that no one can reach it. *)
Definition JoinTrace (operationName : string) (c : carrier)
    (newID now : Z) (σ : store) : outcome Span * store :=
  match c with
  | BinaryCarrier bc =>
      match decode bc with
      | Return (traceID, propagatedSpanID, sampledByte, attrMap) =>
          let a := fresh (dom σ) in
          (Return (startSpanInternal
                     {| TraceID := traceID;
                        SpanID := newID;
                        ParentSpanID := propagatedSpanID;
                        Sampled := negb (sampledByte =? 0);
                        traceAttrs := a |}
                     operationName now []),
           <[a := attrMap]> σ)
      | Fail e => (Fail e, σ)
      | Panic p => (Panic p, σ)
      end
  | _ => (Fail InvalidCarrier, σ)
  end.

End with_runtime.
End splitBinaryPropagator.

Module goHTTPPropagator.
Section with_runtime.
Context `{GoRuntime}.

Definition InjectSpan (sc : StandardContext) (c : carrier) (σ : store)
  : outcome unit * carrier * store :=
  (* Defer to SplitBinary for the real work. *)
  match splitBinaryPropagator.InjectSpan sc (BinaryCarrier NewSplitBinaryCarrier) σ with
  | (Return _, BinaryCarrier splitBinaryCarrier, σ') =>
      (* header := carrier.(http.Header) *)
      match c with
      | HTTPHeader header =>
          let header :=
            http.Add header tracerStateHeaderName
              (base64.EncodeToString
                 (SplitBinaryCarrier.TracerState splitBinaryCarrier)) in
          let header :=
            http.Add header traceAttrsHeaderName
              (base64.EncodeToString
                 (SplitBinaryCarrier.TraceAttributes splitBinaryCarrier)) in
          (Return (), HTTPHeader header, σ')
      | _ => (Panic TypeAssertion, c, σ')
      end
  | (r, _, σ') => (r, c, σ')
  end.

Definition JoinTrace (operationName : string) (c : carrier)
    (newID now : Z) (σ : store) : outcome Span * store :=
  (* header := carrier.(http.Header) *)
  match c with
  | HTTPHeader header =>
      match header !! http.CanonicalHeaderKey tracerStateHeaderName with
      | None | Some [] => (Fail TraceNotFound, σ)
      | Some (tracerStateBase64 :: _) =>
          match header !! http.CanonicalHeaderKey traceAttrsHeaderName with
          | None | Some [] => (Fail TraceNotFound, σ)
          | Some (traceAttrsBase64 :: _) =>
              match base64.DecodeString tracerStateBase64 with
              | None => (Fail TraceCorrupted, σ)
              | Some tracerStateBinary =>
                  match base64.DecodeString traceAttrsBase64 with
                  | None => (Fail TraceCorrupted, σ)
                  | Some traceAttrsBinary =>
                      (* Defer to SplitBinary for the real work. *)
                      splitBinaryPropagator.JoinTrace operationName
                        (BinaryCarrier
                           {| SplitBinaryCarrier.TracerState := tracerStateBinary;
                              SplitBinaryCarrier.TraceAttributes := traceAttrsBinary |})
                        newID now σ
                  end
              end
          end
      end
  | _ => (Panic TypeAssertion, σ)
  end.

End with_runtime.
End goHTTPPropagator.

(** ** Two concrete runtimes

    [range] visits a map in the order of [map_to_list] or in the reverse
    order; a negative hint to [make(map)] is taken as 0 (Go 1.10 and later)
    or panics (before). Non-ASCII strings only get their ASCII letters
    lowered. *)

Lemma reverse_map_to_list_perm (m : gmap string string) :
  reverse (map_to_list m) ≡ₚ map_to_list m.
Proof. apply reverse_Permutation. Defined.

Definition forwardRuntime (old : bool) : GoRuntime :=
  {| rangeOrder := map_to_list;
     rangeOrder_perm := fun m => reflexivity (map_to_list m);
     unicodeToLower := strings.mapBytes strings.lowerByte;
     makemapPanicsOnNegativeHint := old |}.

Definition reverseRuntime (old : bool) : GoRuntime :=
  {| rangeOrder := fun m => reverse (map_to_list m);
     rangeOrder_perm := reverse_map_to_list_perm;
     unicodeToLower := strings.mapBytes strings.lowerByte;
     makemapPanicsOnNegativeHint := old |}.

(** * Properties *)

Global Arguments intN : simpl never.
Global Arguments uintN : simpl never.
Global Arguments binary.get : simpl never.
Global Arguments binary.put : simpl never.

(** ** Reading back what [binary.Write] wrote *)

Lemma ReadFull_app (bs rest : list byte) (n : nat) :
  n = length bs -> binary.ReadFull n (bs ++ rest) = Some (bs, rest).
Proof.
  intros ->. unfold binary.ReadFull.
  rewrite decide_True by (rewrite length_app; lia).
  by rewrite take_app_length, drop_app_length.
Qed.

Lemma ReadFull_short (r : list byte) (n : nat) :
  (length r < n)%nat -> binary.ReadFull n r = None.
Proof. intros Hn. unfold binary.ReadFull. by rewrite decide_False by lia. Qed.

Lemma intN_get_put (w : Z) (n : nat) (x : Z) :
  w = 8 * Z.of_nat n -> 0 < w -> is_intN w x ->
  intN w (binary.get (binary.put n (uintN w x))) = x.
Proof.
  intros -> Hw Hx. rewrite binary_get_put.
  unfold uintN at 1. rewrite Z.mod_mod by (apply Z.pow_nonzero; lia).
  by apply intN_uintN.
Qed.

Lemma read_int64_write (x : Z) (rest : list byte) :
  is_intN 64 x -> binary.read_int64 (binary.write_int64 x ++ rest) = Some (x, rest).
Proof.
  intros Hx. unfold binary.read_int64, binary.write_int64.
  rewrite ReadFull_app by (by rewrite binary_put_length). cbn.
  by rewrite (intN_get_put 64 8) by (done || lia).
Qed.

Lemma read_int32_write (x : Z) (rest : list byte) :
  is_intN 32 x -> binary.read_int32 (binary.write_int32 x ++ rest) = Some (x, rest).
Proof.
  intros Hx. unfold binary.read_int32, binary.write_int32.
  rewrite ReadFull_app by (by rewrite binary_put_length). cbn.
  by rewrite (intN_get_put 32 4) by (done || lia).
Qed.

Lemma read_uint8_write (x : Z) (rest : list byte) :
  0 <= x < 256 -> binary.read_uint8 (binary.write_uint8 x ++ rest) = Some (x, rest).
Proof.
  intros Hx. unfold binary.read_uint8, binary.write_uint8.
  rewrite ReadFull_app by (by rewrite binary_put_length). cbn.
  rewrite binary_get_put. unfold uintN. change (2 ^ (8 * Z.of_nat 1)) with 256.
  change (2 ^ 8) with 256. rewrite Z.mod_mod by lia. by rewrite Z.mod_small by lia.
Qed.

Lemma read_bytes_write (bs rest : list byte) :
  binary.read_bytes (length bs) (binary.write_bytes bs ++ rest) = Some (bs, rest).
Proof. by apply ReadFull_app. Qed.

Section binary_facts.
Context `{GoRuntime}.

Lemma len32_range (n : nat) : is_intN 32 (splitBinaryPropagator.len32 n).
Proof. by apply intN_range. Qed.

Lemma len32_small (n : nat) :
  Z.of_nat n < 2 ^ 31 -> splitBinaryPropagator.len32 n = Z.of_nat n.
Proof.
  intros Hn. unfold splitBinaryPropagator.len32, intN.
  change (2 ^ (32 - 1)) with (2 ^ 31). zpow. zpow_hyp Hn.
  rewrite Z.mod_small by lia.
  destruct (Z.ltb_spec (Z.of_nat n) 2147483648); lia.
Qed.

(** An attribute whose key and value the wire format can carry: their
    byte lengths are representable as non-negative [int32]. *)
Definition wireAttr (kv : string * string) : Prop :=
  Z.of_nat (length (list_byte_of_string kv.1)) < 2 ^ 31
  /\ Z.of_nat (length (list_byte_of_string kv.2)) < 2 ^ 31.

Definition wireMap (m : gmap string string) : Prop :=
  Z.of_nat (size m) < 2 ^ 31 /\ Forall wireAttr (map_to_list m).

Lemma readAttrs_writeAttr (kv : string * string) (n : nat)
    (rest : list byte) (acc : gmap string string) :
  wireAttr kv ->
  splitBinaryPropagator.readAttrs (S n)
    (splitBinaryPropagator.writeAttr kv ++ rest) acc
  = splitBinaryPropagator.readAttrs n rest (<[kv.1 := kv.2]> acc).
Proof.
  intros [Hk Hv]. unfold splitBinaryPropagator.writeAttr.
  cbn [splitBinaryPropagator.readAttrs]. rewrite <- !app_assoc.
  rewrite !len32_small by done.
  assert (Hr : forall n : nat, Z.of_nat n < 2 ^ 31 -> is_intN 32 (Z.of_nat n)).
  { intros k Hlt. unfold is_intN. change (2 ^ (32 - 1)) with (2 ^ 31). lia. }
  unfold splitBinaryPropagator.makeBytes.
  rewrite read_int32_write by auto. cbn.
  destruct (Z.ltb_spec (Z.of_nat (length (list_byte_of_string kv.1))) 0); [lia|].
  cbn. rewrite Nat2Z.id, read_bytes_write. cbn.
  rewrite read_int32_write by auto. cbn.
  destruct (Z.ltb_spec (Z.of_nat (length (list_byte_of_string kv.2))) 0); [lia|].
  cbn. rewrite Nat2Z.id, read_bytes_write. cbn.
  by rewrite !string_of_list_byte_of_string.
Qed.

Lemma readAttrs_flat_map (l : list (string * string)) (rest : list byte)
    (acc : gmap string string) :
  Forall wireAttr l ->
  splitBinaryPropagator.readAttrs (length l)
    (flat_map splitBinaryPropagator.writeAttr l ++ rest) acc
  = Return (fold_left (fun m kv => <[kv.1 := kv.2]> m) l acc).
Proof.
  intros Hl. revert acc. induction Hl as [|kv l Hkv Hl IH]; intros acc; [done|].
  cbn [length flat_map fold_left]. rewrite <- app_assoc.
  rewrite readAttrs_writeAttr by done. apply IH.
Qed.

End binary_facts.

Lemma rev_reverse {A} (l : list A) : rev l = reverse l.
Proof. unfold reverse. apply rev_alt. Qed.

(** Ranging over a map and inserting every entry builds the map again. *)
Lemma fold_insert_range `{GoRuntime} (m : gmap string string) :
  fold_left (fun acc kv => <[kv.1 := kv.2]> acc) (rangeOrder m) ∅ = m.
Proof.
  rewrite <- fold_left_rev_right.
  change (list_to_map (rev (rangeOrder m)) = m).
  rewrite <- (list_to_map_to_list m) at 2.
  apply list_to_map_proper.
  - rewrite rev_reverse, fmap_reverse, reverse_Permutation, rangeOrder_perm.
    apply NoDup_fst_map_to_list.
  - by rewrite rev_reverse, reverse_Permutation, rangeOrder_perm.
Qed.

Lemma rangeOrder_length `{GoRuntime} (m : gmap string string) :
  length (rangeOrder m) = size m.
Proof. by rewrite rangeOrder_perm, length_map_to_list. Qed.

Lemma rangeOrder_wire `{GoRuntime} (m : gmap string string) :
  wireMap m -> Forall wireAttr (rangeOrder m).
Proof. intros [_ Hm]. by rewrite rangeOrder_perm. Qed.

(** ** A running example: the context of the spec's concrete example

    [{TraceID: 42, SpanID: 7, Sampled: true, Attributes: {"user":"alice"}}],
    its attribute map at address 1 of the store. *)

Definition exampleStore : store := {[ 1%positive := {[ "user"%string := "alice"%string ]} ]}.

Definition exampleContext : StandardContext :=
  {| TraceID := 42; SpanID := 7; ParentSpanID := 0; Sampled := true;
     traceAttrs := 1%positive |}.

(** The value a call returned, if it returned. *)
Definition returned {A} (o : outcome A) : option A :=
  match o with Return a => Some a | _ => None end.

(** The binary carrier [InjectSpan] fills for [sc]. *)
Definition injected `{GoRuntime} (sc : StandardContext) (σ : store) : SplitBinaryCarrier.t :=
  match (splitBinaryPropagator.InjectSpan sc (BinaryCarrier NewSplitBinaryCarrier) σ).1.2 with
  | BinaryCarrier bc => bc
  | _ => NewSplitBinaryCarrier
  end.

(** ** Binary codec: round trip *)

Section binary_roundtrip.
Context `{GoRuntime}.

Lemma binary_decode_injected (sc : StandardContext) (σ : store) :
  is_intN 64 (TraceID sc) -> is_intN 64 (SpanID sc) ->
  wireMap (deref σ (traceAttrs sc)) ->
  splitBinaryPropagator.decode (injected sc σ)
  = Return (TraceID sc, SpanID sc, if Sampled sc then 1 else 0,
            deref σ (traceAttrs sc)).
Proof.
  intros Ht Hs Hm. unfold splitBinaryPropagator.decode, injected.
  cbn [splitBinaryPropagator.InjectSpan fst snd
       SplitBinaryCarrier.TracerState SplitBinaryCarrier.TraceAttributes].
  rewrite read_int64_write by done. cbn.
  rewrite read_int64_write by done. cbn.
  rewrite <- (app_nil_r (binary.write_uint8 _)).
  rewrite read_uint8_write by (destruct (Sampled sc); lia). cbn.
  rewrite read_int32_write by apply len32_range. cbn.
  rewrite len32_small by apply Hm.
  unfold splitBinaryPropagator.makeMap.
  destruct (Z.ltb_spec (Z.of_nat (size (deref σ (traceAttrs sc)))) 0); [lia|].
  cbn. rewrite Nat2Z.id, <- rangeOrder_length.
  rewrite <- (app_nil_r (flat_map _ _)).
  rewrite readAttrs_flat_map by (by apply rangeOrder_wire). cbn.
  by rewrite fold_insert_range.
Qed.

End binary_roundtrip.

(** C1, as the code has it. For every context whose identifiers are
    [int64] values and whose attribute map the wire format can carry,
    [JoinTrace] applied to what [InjectSpan] wrote returns a span whose
    context has the original [TraceID], [Sampled] flag and attribute map
    (held in the store at the new context's address), has the original
    [SpanID] as [ParentSpanID], and has as [SpanID] the identifier that
    [randomID()] returned, whatever that identifier is. *)
Theorem binary_roundtrip `{GoRuntime} (sc : StandardContext)
    (bc0 : SplitBinaryCarrier.t) (σ : store) (op : string) (newID now : Z) :
  is_intN 64 (TraceID sc) -> is_intN 64 (SpanID sc) ->
  wireMap (deref σ (traceAttrs sc)) ->
  exists c sp σ',
    splitBinaryPropagator.InjectSpan sc (BinaryCarrier bc0) σ = (Return (), c, σ)
    /\ splitBinaryPropagator.JoinTrace op c newID now σ = (Return sp, σ')
    /\ TraceID (Context sp) = TraceID sc
    /\ Sampled (Context sp) = Sampled sc
    /\ deref σ' (traceAttrs (Context sp)) = deref σ (traceAttrs sc)
    /\ ParentSpanID (Context sp) = SpanID sc
    /\ SpanID (Context sp) = newID.
Proof.
  intros Ht Hs Hm. eexists _, _, _. split; [reflexivity|].
  pose proof (binary_decode_injected sc σ Ht Hs Hm) as Hd.
  unfold injected in Hd. cbn [splitBinaryPropagator.InjectSpan fst snd] in Hd.
  cbn [splitBinaryPropagator.JoinTrace]. rewrite Hd.
  split; [reflexivity|]. cbn.
  repeat split; [by destruct (Sampled sc)|].
  unfold deref at 1. by rewrite lookup_insert_eq.
Qed.

Lemma binary_roundtrip_witness :
  exists c sp σ',
    splitBinaryPropagator.InjectSpan (H := forwardRuntime false) exampleContext
      (BinaryCarrier NewSplitBinaryCarrier) exampleStore = (Return (), c, exampleStore)
    /\ splitBinaryPropagator.JoinTrace (H := forwardRuntime false)
         "op" c 99 1000 exampleStore = (Return sp, σ')
    /\ TraceID (Context sp) = 42
    /\ Sampled (Context sp) = true
    /\ deref σ' (traceAttrs (Context sp)) = {[ "user"%string := "alice"%string ]}
    /\ ParentSpanID (Context sp) = 7
    /\ SpanID (Context sp) = 99.
Proof.
  apply (binary_roundtrip (H := forwardRuntime false) exampleContext
           NewSplitBinaryCarrier exampleStore "op" 99 1000).
  - vm_compute. split; congruence.
  - vm_compute. split; congruence.
  - split; [vm_compute; reflexivity|].
    assert (E : map_to_list (deref exampleStore (traceAttrs exampleContext))
                = [("user", "alice")%string]) by (vm_compute; reflexivity).
    rewrite E. repeat constructor; vm_compute; reflexivity.
Defined.

(** C1, the counterexample to the claim as stated: when [randomID()]
    returns 7, the span joined from the example context (whose [SpanID] is
    7) has [SpanID] 7 again; nothing in [JoinTrace] compares the two. *)
Lemma binary_roundtrip_span_id_may_collide :
  SpanID ∘ Context <$>
    returned (splitBinaryPropagator.JoinTrace (H := forwardRuntime false) "op"
                (BinaryCarrier (injected (H := forwardRuntime false)
                                  exampleContext exampleStore))
                7 1000 exampleStore).1
  = Some (SpanID exampleContext).
Proof. vm_compute. reflexivity. Qed.

(** ** Binary codec: truncated and malformed buffers *)

Lemma ReadFull_take_app (X Y : list byte) (n m : nat) :
  m = length X ->
  binary.ReadFull m (take n (X ++ Y))
  = if decide (m <= n)%nat then Some (X, take (n - m) Y) else None.
Proof.
  intros ->. case_decide as Hn.
  - rewrite take_app_ge by done. by apply ReadFull_app.
  - apply ReadFull_short. rewrite length_take. lia.
Qed.

Lemma write_int32_length (x : Z) : length (binary.write_int32 x) = 4%nat.
Proof. apply binary_put_length. Qed.

Lemma read_int32_take (x : Z) (R : list byte) (n : nat) :
  is_intN 32 x ->
  binary.read_int32 (take n (binary.write_int32 x ++ R))
  = if decide (4 <= n)%nat then Some (x, take (n - 4) R) else None.
Proof.
  intros Hx. unfold binary.read_int32.
  rewrite ReadFull_take_app by (by rewrite write_int32_length).
  case_decide; [|done]. cbn. unfold binary.write_int32.
  by rewrite (intN_get_put 32 4) by (done || lia).
Qed.

Section binary_truncation.
Context `{GoRuntime}.

Lemma writeAttr_length (kv : string * string) :
  length (splitBinaryPropagator.writeAttr kv)
  = (4 + length (list_byte_of_string kv.1) + 4 + length (list_byte_of_string kv.2))%nat.
Proof.
  unfold splitBinaryPropagator.writeAttr, binary.write_bytes.
  rewrite !length_app, !write_int32_length. lia.
Qed.

(** Cut anywhere before its end, the sequence of attribute entries cannot
    be read: the loop runs out of bytes in some length prefix, key or
    value. *)
Lemma readAttrs_truncated (l : list (string * string)) :
  Forall wireAttr l ->
  forall (n : nat) (acc : gmap string string),
    (n < length (flat_map splitBinaryPropagator.writeAttr l))%nat ->
    splitBinaryPropagator.readAttrs (length l)
      (take n (flat_map splitBinaryPropagator.writeAttr l)) acc
    = Fail TraceCorrupted.
Proof.
  induction 1 as [|kv l [Hk Hv] Hl IH]; intros n acc Hn; [cbn in Hn; lia|].
  cbn [flat_map length] in *. rewrite length_app, writeAttr_length in Hn.
  unfold splitBinaryPropagator.writeAttr. rewrite <- !app_assoc.
  rewrite !len32_small by done.
  assert (Hr : forall k : nat, Z.of_nat k < 2 ^ 31 -> is_intN 32 (Z.of_nat k)).
  { intros k Hlt. unfold is_intN. change (2 ^ (32 - 1)) with (2 ^ 31). lia. }
  cbn [splitBinaryPropagator.readAttrs].
  rewrite read_int32_take by auto. case_decide; [cbn|done].
  unfold splitBinaryPropagator.makeBytes.
  destruct (Z.ltb_spec (Z.of_nat (length (list_byte_of_string kv.1))) 0); [lia|].
  cbn. rewrite Nat2Z.id. unfold binary.read_bytes, binary.write_bytes.
  rewrite ReadFull_take_app by done. case_decide; [cbn|done].
  rewrite read_int32_take by auto. case_decide; [cbn|done].
  destruct (Z.ltb_spec (Z.of_nat (length (list_byte_of_string kv.2))) 0); [lia|].
  cbn. rewrite Nat2Z.id. rewrite ReadFull_take_app by done.
  case_decide; [cbn|done]. apply IH. lia.
Qed.

(** A state buffer shorter than 17 bytes cannot be read. *)
Lemma decode_short_state (st attrs : list byte) :
  (length st < 17)%nat ->
  splitBinaryPropagator.decode
    {| SplitBinaryCarrier.TracerState := st;
       SplitBinaryCarrier.TraceAttributes := attrs |}
  = Fail TraceCorrupted.
Proof.
  intros Hst. unfold splitBinaryPropagator.decode.
  cbn [SplitBinaryCarrier.TracerState SplitBinaryCarrier.TraceAttributes].
  unfold binary.read_int64, binary.read_uint8, binary.ReadFull.
  case_decide; [cbn|done]. rewrite length_drop.
  case_decide; [cbn|done]. rewrite !length_drop.
  case_decide; [lia|done].
Qed.

Lemma injected_state_length (sc : StandardContext) (σ : store) :
  length (SplitBinaryCarrier.TracerState (injected sc σ)) = 17%nat.
Proof.
  unfold injected. cbn. unfold binary.write_int64, binary.write_uint8.
  by rewrite !length_app, !binary_put_length.
Qed.

End binary_truncation.

(** C4. Take the record [InjectSpan] writes for a context with [int64]
    identifiers and an attribute map the wire format can carry. If the
    state buffer is cut to fewer than 17 bytes (whatever the attributes
    buffer is), or the attributes buffer is cut anywhere before its end
    (so in particular inside a length prefix, a key or a value),
    [JoinTrace] returns [TraceCorrupted] and builds no span; the store is
    left as it was. *)
Theorem binary_truncation_detected `{GoRuntime} (sc : StandardContext)
    (σ : store) (op : string) (newID now : Z) (n : nat) (attrs : list byte) :
  is_intN 64 (TraceID sc) -> is_intN 64 (SpanID sc) ->
  wireMap (deref σ (traceAttrs sc)) ->
  ((n < 17)%nat ->
   splitBinaryPropagator.JoinTrace op
     (BinaryCarrier
        {| SplitBinaryCarrier.TracerState :=
             take n (SplitBinaryCarrier.TracerState (injected sc σ));
           SplitBinaryCarrier.TraceAttributes := attrs |})
     newID now σ = (Fail TraceCorrupted, σ))
  /\ ((n < length (SplitBinaryCarrier.TraceAttributes (injected sc σ)))%nat ->
      splitBinaryPropagator.JoinTrace op
        (BinaryCarrier
           {| SplitBinaryCarrier.TracerState :=
                SplitBinaryCarrier.TracerState (injected sc σ);
              SplitBinaryCarrier.TraceAttributes :=
                take n (SplitBinaryCarrier.TraceAttributes (injected sc σ)) |})
        newID now σ = (Fail TraceCorrupted, σ)).
Proof.
  intros Ht Hs Hm. split; intros Hn.
  - cbn [splitBinaryPropagator.JoinTrace].
    rewrite decode_short_state; [done|]. rewrite length_take. lia.
  - cbn [splitBinaryPropagator.JoinTrace].
    unfold injected in *.
    cbn [splitBinaryPropagator.InjectSpan fst snd
         SplitBinaryCarrier.TracerState SplitBinaryCarrier.TraceAttributes] in *.
    unfold splitBinaryPropagator.decode.
    cbn [SplitBinaryCarrier.TracerState SplitBinaryCarrier.TraceAttributes].
    rewrite read_int64_write by done. cbn.
    rewrite read_int64_write by done. cbn.
    rewrite <- (app_nil_r (binary.write_uint8 _)).
    rewrite read_uint8_write by (destruct (Sampled sc); lia). cbn.
    rewrite length_app, write_int32_length in Hn.
    rewrite read_int32_take by apply len32_range.
    case_decide; [cbn|done].
    rewrite len32_small by apply Hm.
    unfold splitBinaryPropagator.makeMap.
    destruct (Z.ltb_spec (Z.of_nat (size (deref σ (traceAttrs sc)))) 0); [lia|].
    cbn. rewrite Nat2Z.id, <- rangeOrder_length.
    rewrite readAttrs_truncated; [done| by apply rangeOrder_wire | lia].
Qed.

Lemma exampleContext_ids :
  is_intN 64 (TraceID exampleContext) /\ is_intN 64 (SpanID exampleContext).
Proof. split; vm_compute; split; congruence. Qed.

Lemma exampleContext_wire : wireMap (deref exampleStore (traceAttrs exampleContext)).
Proof.
  split; [vm_compute; reflexivity|].
  assert (E : map_to_list (deref exampleStore (traceAttrs exampleContext))
              = [("user", "alice")%string]) by (vm_compute; reflexivity).
  rewrite E. repeat constructor; vm_compute; reflexivity.
Qed.

Lemma binary_truncation_detected_witness :
  splitBinaryPropagator.JoinTrace (H := forwardRuntime false) "op"
    (BinaryCarrier
       {| SplitBinaryCarrier.TracerState :=
            take 10 (SplitBinaryCarrier.TracerState
                       (injected (H := forwardRuntime false) exampleContext exampleStore));
          SplitBinaryCarrier.TraceAttributes := [] |})
    99 1000 exampleStore = (Fail TraceCorrupted, exampleStore)
  /\ splitBinaryPropagator.JoinTrace (H := forwardRuntime false) "op"
       (BinaryCarrier
          {| SplitBinaryCarrier.TracerState :=
               SplitBinaryCarrier.TracerState
                 (injected (H := forwardRuntime false) exampleContext exampleStore);
             SplitBinaryCarrier.TraceAttributes :=
               take 10 (SplitBinaryCarrier.TraceAttributes
                          (injected (H := forwardRuntime false) exampleContext exampleStore)) |})
       99 1000 exampleStore = (Fail TraceCorrupted, exampleStore).
Proof.
  destruct (binary_truncation_detected (H := forwardRuntime false)
              exampleContext exampleStore "op" 99 1000 10 []
              (proj1 exampleContext_ids) (proj2 exampleContext_ids)
              exampleContext_wire) as [H1 H2].
  split; [apply H1; lia | apply H2; vm_compute; lia].
Defined.

(** ** Binary codec: negative length prefixes (C2) *)

(** Three carriers with a full state buffer (17 zero bytes) and an
    attributes buffer whose count or whose first key or value length is
    -1. *)
Definition zeroState : list byte := repeat x00 17.

Definition negativeKeyLength : SplitBinaryCarrier.t :=
  {| SplitBinaryCarrier.TracerState := zeroState;
     SplitBinaryCarrier.TraceAttributes :=
       [x00; x00; x00; x01; xff; xff; xff; xff] |}.

Definition negativeValueLength : SplitBinaryCarrier.t :=
  {| SplitBinaryCarrier.TracerState := zeroState;
     SplitBinaryCarrier.TraceAttributes :=
       [x00; x00; x00; x01; x00; x00; x00; x01; x6b; xff; xff; xff; xff] |}.

Definition negativeCount : SplitBinaryCarrier.t :=
  {| SplitBinaryCarrier.TracerState := zeroState;
     SplitBinaryCarrier.TraceAttributes := [xff; xff; xff; xff] |}.

(** Whatever the buffer, a negative key length makes the loop panic. *)
Lemma readAttrs_negative_key_length `{GoRuntime} (n : nat) (r r' : binary.Reader)
    (acc : gmap string string) (keyLen : Z) :
  binary.read_int32 r = Some (keyLen, r') -> keyLen < 0 ->
  splitBinaryPropagator.readAttrs (S n) r acc = Panic MakeSliceLen.
Proof.
  intros Hr Hneg. cbn [splitBinaryPropagator.readAttrs]. rewrite Hr. cbn.
  unfold splitBinaryPropagator.makeBytes.
  by destruct (Z.ltb_spec keyLen 0); [|lia].
Qed.

(** C2, what the code does. With a key or value length of -1,
    [make([]byte, keyLen)] panics: [JoinTrace] does not return, so it does
    not return [TraceCorrupted]. With an entry count of -1 the loop body
    never runs: depending on the Go release [make(map, -1)] panics too, or
    [JoinTrace] returns a span with an empty attribute map. In no case is
    the result the error [TraceCorrupted]. *)
Theorem binary_negative_prefix_not_reported `{GoRuntime}
    (op : string) (newID now : Z) (σ : store) :
  splitBinaryPropagator.JoinTrace op (BinaryCarrier negativeKeyLength) newID now σ
  = (Panic MakeSliceLen, σ)
  /\ splitBinaryPropagator.JoinTrace op (BinaryCarrier negativeValueLength) newID now σ
     = (Panic MakeSliceLen, σ)
  /\ splitBinaryPropagator.JoinTrace op (BinaryCarrier negativeCount) newID now σ
     = if makemapPanicsOnNegativeHint then (Panic MakeMapSize, σ)
       else (Return (startSpanInternal
                       {| TraceID := 0; SpanID := newID; ParentSpanID := 0;
                          Sampled := false; traceAttrs := fresh (dom σ) |}
                       op now []),
             <[fresh (dom σ) := ∅]> σ).
Proof.
  unfold splitBinaryPropagator.JoinTrace.
  assert (E1 : splitBinaryPropagator.decode negativeKeyLength = Panic MakeSliceLen)
    by (vm_compute; reflexivity).
  assert (E2 : splitBinaryPropagator.decode negativeValueLength = Panic MakeSliceLen)
    by (vm_compute; reflexivity).
  rewrite E1, E2. do 2 (split; [reflexivity|]).
  unfold splitBinaryPropagator.decode, splitBinaryPropagator.makeMap.
  change (orCorrupted (binary.read_int64 (SplitBinaryCarrier.TracerState negativeCount)))
    with (Return (0, drop 8 zeroState)).
  cbn [mbind outcome_bind].
  change (orCorrupted (binary.read_int64 (drop 8 zeroState)))
    with (Return (0, drop 16 zeroState)).
  cbn [mbind outcome_bind].
  change (orCorrupted (binary.read_uint8 (drop 16 zeroState)))
    with (Return (0, @nil byte)).
  cbn [mbind outcome_bind].
  change (orCorrupted (binary.read_int32 (SplitBinaryCarrier.TraceAttributes negativeCount)))
    with (Return (-1, @nil byte)).
  cbn [mbind outcome_bind].
  change (-1 <? 0) with true. cbn [andb].
  destruct makemapPanicsOnNegativeHint; reflexivity.
Qed.

(** ** HTTP wrapper *)

(** The header has no value under [name]: the entry is absent, or its
    list of values is empty. *)
Definition noValue (h : http.Header) (name : string) : Prop :=
  h !! http.CanonicalHeaderKey name = None
  \/ h !! http.CanonicalHeaderKey name = Some [].

Lemma canonical_tracerState :
  http.CanonicalHeaderKey tracerStateHeaderName = "Tracer-State"%string.
Proof. vm_compute. reflexivity. Qed.

Lemma canonical_traceAttrs :
  http.CanonicalHeaderKey traceAttrsHeaderName = "Trace-Attributes"%string.
Proof. vm_compute. reflexivity. Qed.

Lemma noValue_default (h : http.Header) (name : string) :
  noValue h name -> default [] (h !! http.CanonicalHeaderKey name) = [].
Proof. by intros [-> | ->]. Qed.

Section http_facts.
Context `{GoRuntime}.

Lemma http_join_first_values (op : string) (h : http.Header) (newID now : Z)
    (σ : store) (s a : string) (ss aa : list string) :
  h !! http.CanonicalHeaderKey tracerStateHeaderName = Some (s :: ss) ->
  h !! http.CanonicalHeaderKey traceAttrsHeaderName = Some (a :: aa) ->
  goHTTPPropagator.JoinTrace op (HTTPHeader h) newID now σ
  = match base64.DecodeString s, base64.DecodeString a with
    | Some sb, Some ab =>
        splitBinaryPropagator.JoinTrace op
          (BinaryCarrier {| SplitBinaryCarrier.TracerState := sb;
                            SplitBinaryCarrier.TraceAttributes := ab |})
          newID now σ
    | _, _ => (Fail TraceCorrupted, σ)
    end.
Proof.
  intros Hs Ha. unfold goHTTPPropagator.JoinTrace. rewrite Hs, Ha.
  by destruct (base64.DecodeString s), (base64.DecodeString a).
Qed.

Lemma http_inject_headers (sc : StandardContext) (h : http.Header) (σ : store) :
  noValue h tracerStateHeaderName -> noValue h traceAttrsHeaderName ->
  exists h',
    goHTTPPropagator.InjectSpan sc (HTTPHeader h) σ = (Return (), HTTPHeader h', σ)
    /\ h' !! http.CanonicalHeaderKey tracerStateHeaderName
       = Some [base64.EncodeToString (SplitBinaryCarrier.TracerState (injected sc σ))]
    /\ h' !! http.CanonicalHeaderKey traceAttrsHeaderName
       = Some [base64.EncodeToString (SplitBinaryCarrier.TraceAttributes (injected sc σ))].
Proof.
  intros Hs%noValue_default Ha%noValue_default.
  eexists. split; [reflexivity|]. unfold http.Add.
  rewrite canonical_tracerState, canonical_traceAttrs in *.
  rewrite (lookup_insert_ne _ "Tracer-State"%string "Trace-Attributes"%string) by done.
  rewrite Hs, Ha. cbn [app].
  split; [|by rewrite lookup_insert_eq].
  rewrite lookup_insert_ne by done. by rewrite lookup_insert_eq.
Qed.

End http_facts.

(** C3. Injecting a context through the HTTP wrapper into a header that
    has no value yet under the two header names, and joining from that
    header, gives exactly what joining from the binary carrier filled by the
    Binary Codec gives: the same outcome (span or error) and the same store.
    More generally, whenever both headers have a first value that decodes,
    the wrapper's [JoinTrace] is the Binary Codec's [JoinTrace] on the two
    decoded buffers. *)
Theorem http_wrapper_equivalent `{GoRuntime} (sc : StandardContext)
    (h : http.Header) (σ : store) (op : string) (newID now : Z) :
  (noValue h tracerStateHeaderName -> noValue h traceAttrsHeaderName ->
   exists c,
     goHTTPPropagator.InjectSpan sc (HTTPHeader h) σ = (Return (), c, σ)
     /\ goHTTPPropagator.JoinTrace op c newID now σ
        = splitBinaryPropagator.JoinTrace op
            (splitBinaryPropagator.InjectSpan sc
               (BinaryCarrier NewSplitBinaryCarrier) σ).1.2 newID now σ)
  /\ (forall (s a : string) (ss aa : list string) (sb ab : list byte),
        h !! http.CanonicalHeaderKey tracerStateHeaderName = Some (s :: ss) ->
        h !! http.CanonicalHeaderKey traceAttrsHeaderName = Some (a :: aa) ->
        base64.DecodeString s = Some sb -> base64.DecodeString a = Some ab ->
        goHTTPPropagator.JoinTrace op (HTTPHeader h) newID now σ
        = splitBinaryPropagator.JoinTrace op
            (BinaryCarrier {| SplitBinaryCarrier.TracerState := sb;
                              SplitBinaryCarrier.TraceAttributes := ab |})
            newID now σ).
Proof.
  split.
  - intros Hs Ha.
    destruct (http_inject_headers sc h σ Hs Ha) as (h' & Hinj & Hs' & Ha').
    exists (HTTPHeader h'). split; [done|].
    rewrite (http_join_first_values op h' newID now σ _ _ [] [] Hs' Ha').
    by rewrite !base64_DecodeString_EncodeToString.
  - intros s a ss aa sb ab Hs Ha Hsb Hab.
    by rewrite (http_join_first_values op h newID now σ s a ss aa Hs Ha), Hsb, Hab.
Qed.

Lemma http_wrapper_equivalent_witness :
  (exists c,
     goHTTPPropagator.InjectSpan (H := forwardRuntime false) exampleContext
       (HTTPHeader ∅) exampleStore = (Return (), c, exampleStore)
     /\ goHTTPPropagator.JoinTrace (H := forwardRuntime false) "op" c 99 1000 exampleStore
        = splitBinaryPropagator.JoinTrace (H := forwardRuntime false) "op"
            (splitBinaryPropagator.InjectSpan (H := forwardRuntime false) exampleContext
               (BinaryCarrier NewSplitBinaryCarrier) exampleStore).1.2
            99 1000 exampleStore)
  /\ goHTTPPropagator.JoinTrace (H := forwardRuntime false) "op"
       (HTTPHeader (<["Tracer-State"%string := ["AAAAAAAAACoAAAAAAAAABwE="%string]]>
                      {["Trace-Attributes"%string := ["AAAAAA=="; "zzz"]%string]}))
       99 1000 exampleStore
     = splitBinaryPropagator.JoinTrace (H := forwardRuntime false) "op"
         (BinaryCarrier
            {| SplitBinaryCarrier.TracerState :=
                 SplitBinaryCarrier.TracerState
                   (injected (H := forwardRuntime false) exampleContext exampleStore);
               SplitBinaryCarrier.TraceAttributes := [x00; x00; x00; x00] |})
         99 1000 exampleStore.
Proof.
  split.
  - apply (proj1 (http_wrapper_equivalent (H := forwardRuntime false)
                    exampleContext ∅ exampleStore "op" 99 1000));
      left; apply lookup_empty.
  - apply (proj2 (http_wrapper_equivalent (H := forwardRuntime false)
                    exampleContext _ exampleStore "op" 99 1000)
             "AAAAAAAAACoAAAAAAAAABwE="%string "AAAAAA=="%string [] ["zzz"%string]);
      vm_compute; reflexivity.
Defined.

(** C9. For an [http.Header] carrier: if either header name has no value
    (absent, or an empty list of values), [JoinTrace] returns
    [TraceNotFound]. If both have values, the outcome depends on the first
    value under each name only: it is the outcome for the header that holds
    just these two first values; and if either first value is not valid
    base64, the outcome is [TraceCorrupted]. *)
Theorem http_join_headers `{GoRuntime} (op : string) (h : http.Header)
    (newID now : Z) (σ : store) :
  (noValue h tracerStateHeaderName \/ noValue h traceAttrsHeaderName ->
   goHTTPPropagator.JoinTrace op (HTTPHeader h) newID now σ = (Fail TraceNotFound, σ))
  /\ (forall (s a : string) (ss aa : list string),
        h !! http.CanonicalHeaderKey tracerStateHeaderName = Some (s :: ss) ->
        h !! http.CanonicalHeaderKey traceAttrsHeaderName = Some (a :: aa) ->
        goHTTPPropagator.JoinTrace op (HTTPHeader h) newID now σ
        = goHTTPPropagator.JoinTrace op
            (HTTPHeader (<[http.CanonicalHeaderKey tracerStateHeaderName := [s]]>
                           {[http.CanonicalHeaderKey traceAttrsHeaderName := [a]]}))
            newID now σ
        /\ (base64.DecodeString s = None \/ base64.DecodeString a = None ->
            goHTTPPropagator.JoinTrace op (HTTPHeader h) newID now σ
            = (Fail TraceCorrupted, σ))).
Proof.
  split.
  - unfold goHTTPPropagator.JoinTrace.
    intros [[Hs | Hs] | [Ha | Ha]]; rewrite ?Hs, ?Ha; try done.
    all: by destruct (h !! http.CanonicalHeaderKey tracerStateHeaderName) as [[|? ?]|].
  - intros s a ss aa Hs Ha. split.
    + rewrite (http_join_first_values op h newID now σ s a ss aa Hs Ha).
      symmetry. apply http_join_first_values with (ss := []) (aa := []).
      * by rewrite lookup_insert_eq.
      * rewrite lookup_insert_ne
          by (by rewrite canonical_tracerState, canonical_traceAttrs).
        by rewrite lookup_singleton_eq.
    + rewrite (http_join_first_values op h newID now σ s a ss aa Hs Ha).
      intros [-> | ->]; [done|]. by destruct (base64.DecodeString s).
Qed.

Lemma http_join_headers_witness :
  goHTTPPropagator.JoinTrace (H := forwardRuntime false) "op"
    (HTTPHeader {["Tracer-State"%string := ["AAAAAAAAACoAAAAAAAAABwE="%string]]})
    99 1000 exampleStore = (Fail TraceNotFound, exampleStore)
  /\ goHTTPPropagator.JoinTrace (H := forwardRuntime false) "op"
       (HTTPHeader (<["Tracer-State"%string := ["AAAAAAAAACoAAAAAAAAABwE="; "!"]%string]>
                      {["Trace-Attributes"%string := ["!!!!"; "AAAAAA=="]%string]}))
       99 1000 exampleStore = (Fail TraceCorrupted, exampleStore).
Proof.
  split.
  - apply (proj1 (http_join_headers (H := forwardRuntime false) "op" _ 99 1000 exampleStore)).
    right. left. vm_compute. reflexivity.
  - apply (proj2 (http_join_headers (H := forwardRuntime false) "op" _ 99 1000 exampleStore)
             "AAAAAAAAACoAAAAAAAAABwE="%string "!!!!"%string ["!"%string] ["AAAAAA=="%string]);
      [vm_compute; reflexivity .. |].
    right. vm_compute. reflexivity.
Defined.

(** ** Text codec: the scan of [TracerState] *)

Section text_facts.
Context `{GoRuntime}.

(** The key is one of the three names, compared as [JoinTrace] does. *)
Definition knownField (k : string) : Prop :=
  strings.ToLower k ∈ [fieldNameTraceID; fieldNameSpanID; fieldNameSampled].

#[global] Instance knownField_dec (k : string) : Decision (knownField k).
Proof. unfold knownField. apply _. Defined.

(** The entry is a recognized field: its key is one of the three names
    and its value parses as the type of that field. *)
Definition validField (kv : string * string) : Prop :=
  (strings.ToLower kv.1 = fieldNameTraceID /\ is_Some (strconv.ParseInt kv.2))
  \/ (strings.ToLower kv.1 = fieldNameSpanID /\ is_Some (strconv.ParseInt kv.2))
  \/ (strings.ToLower kv.1 = fieldNameSampled /\ is_Some (strconv.ParseBool kv.2)).

(** The lower-cased keys of a state map. *)
Definition loweredKeys (m : gmap string string) : list string :=
  strings.ToLower <$> (map_to_list m).*1.

Definition missingField (n : Z) : error :=
  Errorf ("Only found " +:+ strconv.FormatInt n +:+ " of 3 required fields").

Definition unknownField (k : string) : error :=
  Errorf ("Unknown TracerState field: " +:+ k).

Definition noFields : splitTextPropagator.fields :=
  {| splitTextPropagator.traceID := 0;
     splitTextPropagator.propagatedSpanID := 0;
     splitTextPropagator.sampled := false;
     splitTextPropagator.requiredFieldCount := 0 |}.

Lemma field_valid (st : splitTextPropagator.fields) (kv : string * string) :
  validField kv ->
  exists st',
    splitTextPropagator.field st kv = Return st'
    /\ splitTextPropagator.requiredFieldCount st'
       = splitTextPropagator.requiredFieldCount st + 1.
Proof.
  destruct kv as [k v]. unfold validField, splitTextPropagator.field. cbn [fst snd].
  intros [[-> [x ->]] | [[-> [x ->]] | [-> [x ->]]]]; cbn; eauto.
Qed.

Lemma field_unknown (st : splitTextPropagator.fields) (k v : string) :
  ~ knownField k -> splitTextPropagator.field st (k, v) = Fail (unknownField k).
Proof.
  unfold knownField, splitTextPropagator.field. intros Hk.
  destruct (String.eqb_spec (strings.ToLower k) fieldNameTraceID) as [E|_];
    [exfalso; apply Hk; rewrite E, !elem_of_cons; tauto|].
  destruct (String.eqb_spec (strings.ToLower k) fieldNameSpanID) as [E|_];
    [exfalso; apply Hk; rewrite E, !elem_of_cons; tauto|].
  destruct (String.eqb_spec (strings.ToLower k) fieldNameSampled) as [E|_];
    [exfalso; apply Hk; rewrite E, !elem_of_cons; tauto|].
  reflexivity.
Qed.

Lemma field_known_cases (k : string) :
  knownField k ->
  strings.ToLower k = fieldNameTraceID \/ strings.ToLower k = fieldNameSpanID
  \/ strings.ToLower k = fieldNameSampled.
Proof. unfold knownField. rewrite !elem_of_cons, elem_of_nil. tauto. Qed.

(** A scan of recognized fields only goes through and counts every entry. *)
Lemma scan_valid (l : list (string * string)) (st : splitTextPropagator.fields) :
  Forall validField l ->
  exists st',
    splitTextPropagator.scan l st = Return st'
    /\ splitTextPropagator.requiredFieldCount st'
       = splitTextPropagator.requiredFieldCount st + Z.of_nat (length l).
Proof.
  intros Hl. revert st. induction Hl as [|kv l Hkv Hl IH]; intros st.
  - exists st. split; [done|]. cbn. lia.
  - destruct (field_valid st kv Hkv) as (st1 & E1 & C1).
    destruct (IH st1) as (st2 & E2 & C2).
    exists st2. cbn [splitTextPropagator.scan]. rewrite E1. cbn.
    split; [done|]. rewrite C2, C1. cbn [length]. lia.
Qed.

(** A scan that meets an unrecognized key, all recognized fields before it
    being well formed, stops there with the unknown-field error. *)
Lemma scan_unknown (l : list (string * string)) (st : splitTextPropagator.fields) :
  Forall (fun kv => knownField kv.1 -> validField kv) l ->
  Exists (fun kv => ~ knownField kv.1) l ->
  exists k, k ∈ l.*1 /\ ~ knownField k
            /\ splitTextPropagator.scan l st = Fail (unknownField k).
Proof.
  intros Hl. revert st. induction Hl as [|[k v] l Hkv Hl IH]; intros st Hex.
  - by apply Exists_nil in Hex.
  - destruct (decide (knownField k)) as [Hk|Hk].
    + apply Exists_cons in Hex as [Hex|Hex]; [done|].
      destruct (field_valid st (k, v) (Hkv Hk)) as (st1 & E1 & _).
      destruct (IH st1 Hex) as (k' & Hin & Hk' & E).
      exists k'. split; [rewrite fmap_cons; apply elem_of_cons; by right|].
      split; [done|]. cbn [splitTextPropagator.scan]. by rewrite E1.
    + exists k. split; [rewrite fmap_cons; apply elem_of_cons; by left|].
      split; [done|].
      cbn [splitTextPropagator.scan]. by rewrite field_unknown.
Qed.

(** A scan that meets no key for [sampled] leaves the flag as it was. *)
Lemma scan_keeps_sampled (l : list (string * string))
    (st st' : splitTextPropagator.fields) :
  fieldNameSampled ∉ (strings.ToLower <$> l.*1) ->
  splitTextPropagator.scan l st = Return st' ->
  splitTextPropagator.sampled st' = splitTextPropagator.sampled st.
Proof.
  revert st. induction l as [|[k v] l IH]; intros st Hno Hscan.
  - cbn in Hscan. by inversion Hscan.
  - cbn [splitTextPropagator.scan] in Hscan.
    rewrite fmap_cons, fmap_cons, not_elem_of_cons in Hno. destruct Hno as [Hk Hno].
    destruct (splitTextPropagator.field st (k, v)) as [st1| |] eqn:E; [|done..].
    cbn in Hscan. rewrite (IH st1 Hno Hscan).
    unfold splitTextPropagator.field in E. cbn [fst] in Hk.
    destruct (String.eqb_spec (strings.ToLower k) fieldNameTraceID) as [Ek|_];
      [destruct (strconv.ParseInt v); cbn in E; by inversion E|].
    destruct (String.eqb_spec (strings.ToLower k) fieldNameSpanID) as [Ek|_];
      [destruct (strconv.ParseInt v); cbn in E; by inversion E|].
    destruct (String.eqb_spec (strings.ToLower k) fieldNameSampled) as [Ek|_];
      [done|done].
Qed.

(** Among the three names, the lower-cased keys are pairwise distinct and
    one name is missing: there are at most two keys. *)
Lemma loweredKeys_short (keys : list string) (f : string) :
  NoDup keys ->
  (forall k, k ∈ keys -> k ∈ [fieldNameTraceID; fieldNameSpanID; fieldNameSampled]) ->
  f ∈ [fieldNameTraceID; fieldNameSpanID; fieldNameSampled] -> f ∉ keys ->
  (length keys < 3)%nat.
Proof.
  intros Hnd Hin Hf Hnot.
  assert (Hsub : keys ⊆+ filter (fun x => x ≠ f)
                          [fieldNameTraceID; fieldNameSpanID; fieldNameSampled]).
  { apply NoDup_submseteq; [done|]. intros k Hk. apply list_elem_of_filter.
    split; [congruence|]. by apply Hin. }
  apply submseteq_length in Hsub.
  assert (length (filter (fun x => x ≠ f)
                    [fieldNameTraceID; fieldNameSpanID; fieldNameSampled]) = 2)%nat.
  { apply list_elem_of_In in Hf. cbn in Hf.
    destruct Hf as [<- | [<- | [<- | []]]]; vm_compute; reflexivity. }
  lia.
Qed.

End text_facts.

Ltac by_decision :=
  match goal with
  | |- ?P => apply (bool_decide_unpack P); vm_compute; exact I
  end.

(** C7, as the code has it. Take a state map in which every entry is a
    recognized field with a value that parses and no two keys are equal up
    to case. If one of the three required fields is not among its keys,
    the map has fewer than three entries and [JoinTrace] returns the
    missing-field error that names their number. *)
Theorem text_missing_field `{GoRuntime} (op : string) (tc : SplitTextCarrier.t)
    (newID now : Z) (σ : store) (f : string) :
  Forall validField (map_to_list (SplitTextCarrier.TracerState tc)) ->
  NoDup (loweredKeys (SplitTextCarrier.TracerState tc)) ->
  f ∈ [fieldNameTraceID; fieldNameSpanID; fieldNameSampled] ->
  f ∉ loweredKeys (SplitTextCarrier.TracerState tc) ->
  (size (SplitTextCarrier.TracerState tc) < 3)%nat
  /\ splitTextPropagator.JoinTrace op (TextCarrier tc) newID now σ
     = (Fail (missingField (Z.of_nat (size (SplitTextCarrier.TracerState tc)))), σ).
Proof.
  intros Hvalid Hnd Hf Hnot. set (m := SplitTextCarrier.TracerState tc) in *.
  assert (Hsize : (size m < 3)%nat).
  { rewrite <- length_map_to_list.
    rewrite <- (length_fmap fst), <- (length_fmap strings.ToLower).
    apply (loweredKeys_short _ f); try done.
    intros k (k0 & -> & ([k1 v] & -> & Hkv)%list_elem_of_fmap)%list_elem_of_fmap.
    rewrite Forall_forall in Hvalid. specialize (Hvalid _ Hkv).
    unfold validField in Hvalid. cbn [fst snd] in *. rewrite !elem_of_cons.
    destruct Hvalid as [[-> _] | [[-> _] | [-> _]]]; tauto. }
  split; [done|].
  destruct (scan_valid (rangeOrder m) noFields) as (st & Hscan & Hcount).
  { by rewrite rangeOrder_perm. }
  rewrite rangeOrder_length in Hcount. cbn in Hcount. rewrite Z.add_0_l in Hcount.
  unfold splitTextPropagator.JoinTrace. fold m. fold noFields. rewrite Hscan. cbn.
  rewrite Hcount. destruct (Z.ltb_spec (Z.of_nat (size m)) 3); [done|lia].
Qed.

Definition traceAndSpanOnly : SplitTextCarrier.t :=
  {| SplitTextCarrier.TracerState :=
       <["traceid"%string := "42"%string]> {["spanid"%string := "7"%string]};
     SplitTextCarrier.TraceAttributes := 1%positive |}.

Lemma text_missing_field_witness :
  (size (SplitTextCarrier.TracerState traceAndSpanOnly) < 3)%nat
  /\ splitTextPropagator.JoinTrace (H := forwardRuntime false) "op"
       (TextCarrier traceAndSpanOnly) 99 1000 exampleStore
     = (Fail (Errorf "Only found 2 of 3 required fields"), exampleStore).
Proof.
  assert (E : map_to_list (SplitTextCarrier.TracerState traceAndSpanOnly)
              = [("spanid", "7"); ("traceid", "42")]%string)
    by (vm_compute; reflexivity).
  apply (text_missing_field (H := forwardRuntime false) "op" traceAndSpanOnly
           99 1000 exampleStore fieldNameSampled).
  - rewrite E, !Forall_cons, Forall_nil. repeat split.
    + right. left. split; [vm_compute; reflexivity | by eexists].
    + left. split; [vm_compute; reflexivity | by eexists].
  - unfold loweredKeys. rewrite E. by_decision.
  - by_decision.
  - unfold loweredKeys. rewrite E. by_decision.
Defined.

(** C7, a counterexample to the claim as stated: in the state map
    [{"foo": "bar"}] none of the three required fields is recognized, and
    [JoinTrace] returns the unknown-field error, not a missing-field
    error. *)
Lemma text_missing_field_not_for_unknown_key :
  loweredKeys (H := forwardRuntime false) {["foo"%string := "bar"%string]}
  = ["foo"%string]
  /\ (splitTextPropagator.JoinTrace (H := forwardRuntime false) "op"
        (TextCarrier {| SplitTextCarrier.TracerState := {["foo"%string := "bar"%string]};
                        SplitTextCarrier.TraceAttributes := 1%positive |})
        99 1000 exampleStore).1
     = Fail (Errorf "Unknown TracerState field: foo").
Proof. split; vm_compute; reflexivity. Qed.

(** C8, as the code has it. If the state map has a key that is none of
    the three names, and the values under the keys that are parse,
    [JoinTrace] returns the unknown-field error for an unrecognized key of
    the map, whether or not the three required keys are present. *)
Theorem text_unknown_field `{GoRuntime} (op : string) (tc : SplitTextCarrier.t)
    (newID now : Z) (σ : store) :
  Exists (fun kv => ~ knownField kv.1) (map_to_list (SplitTextCarrier.TracerState tc)) ->
  Forall (fun kv => knownField kv.1 -> validField kv)
         (map_to_list (SplitTextCarrier.TracerState tc)) ->
  exists k,
    is_Some (SplitTextCarrier.TracerState tc !! k) /\ ~ knownField k
    /\ splitTextPropagator.JoinTrace op (TextCarrier tc) newID now σ
       = (Fail (unknownField k), σ).
Proof.
  intros Hex Hall.
  destruct (scan_unknown (rangeOrder (SplitTextCarrier.TracerState tc)) noFields)
    as (k & Hin & Hk & Hscan).
  { by rewrite rangeOrder_perm. }
  { by rewrite rangeOrder_perm. }
  exists k. split; [|split; [done|]].
  - rewrite rangeOrder_perm in Hin.
    apply list_elem_of_fmap in Hin as ([k' v] & -> & Hkv).
    apply elem_of_map_to_list in Hkv. by exists v.
  - unfold splitTextPropagator.JoinTrace. fold noFields. by rewrite Hscan.
Qed.

Definition allFieldsAndFoo : SplitTextCarrier.t :=
  {| SplitTextCarrier.TracerState :=
       <["Foo"%string := "1"%string]>
         (<["traceid"%string := "42"%string]>
            (<["spanid"%string := "7"%string]> {["sampled"%string := "true"%string]}));
     SplitTextCarrier.TraceAttributes := 1%positive |}.

Lemma text_unknown_field_witness :
  exists k,
    is_Some (SplitTextCarrier.TracerState allFieldsAndFoo !! k)
    /\ ~ knownField (H := forwardRuntime false) k
    /\ splitTextPropagator.JoinTrace (H := forwardRuntime false) "op"
         (TextCarrier allFieldsAndFoo) 99 1000 exampleStore
       = (Fail (unknownField k), exampleStore).
Proof.
  assert (E : map_to_list (SplitTextCarrier.TracerState allFieldsAndFoo)
              = [("sampled", "true"); ("spanid", "7"); ("Foo", "1");
                 ("traceid", "42")]%string)
    by (vm_compute; reflexivity).
  apply (text_unknown_field (H := forwardRuntime false) "op" allFieldsAndFoo
           99 1000 exampleStore).
  - rewrite E. apply Exists_cons_tl, Exists_cons_tl, Exists_cons_hd. by_decision.
  - rewrite E, !Forall_cons, Forall_nil. repeat split; intros Hk.
    + right. right. split; [vm_compute; reflexivity | by eexists].
    + right. left. split; [vm_compute; reflexivity | by eexists].
    + exfalso. revert Hk. by_decision.
    + left. split; [vm_compute; reflexivity | by eexists].
Defined.

(** C8, a counterexample to the claim as stated: the state map
    [{"foo": "1", "traceid": "zz"}] has the unrecognized key ["foo"], and
    when the loop visits ["traceid"] first [JoinTrace] returns
    [TraceCorrupted]. *)
Lemma text_unknown_field_after_corrupted_value :
  ~ knownField (H := reverseRuntime false) "foo"
  /\ (splitTextPropagator.JoinTrace (H := reverseRuntime false) "op"
        (TextCarrier {| SplitTextCarrier.TracerState :=
                          <["foo"%string := "1"%string]> {["traceid"%string := "zz"%string]};
                        SplitTextCarrier.TraceAttributes := 1%positive |})
        99 1000 exampleStore).1
     = Fail TraceCorrupted.
Proof. split; [by_decision | vm_compute; reflexivity]. Qed.

(** ** Text codec: case variants of one key (C10) *)

Definition duplicatedTraceID : gmap string string :=
  <["traceid"%string := "1"%string]>
    (<["TraceID"%string := "2"%string]> {["spanid"%string := "3"%string]}).

(** C10. The state map [{"traceid": "1", "TraceID": "2", "spanid": "3"}]
    has no key for [sampled]. Whatever the order of the loop, each of its
    three entries raises [requiredFieldCount], which reaches 3, and
    [JoinTrace] returns a span (with [Sampled] left at [false]) instead of
    a missing-field error. *)
Theorem text_duplicate_keys_reach_three `{GoRuntime} (op : string) (a : addr)
    (newID now : Z) (σ : store) :
  (fieldNameSampled ∉ loweredKeys duplicatedTraceID)
  /\ exists st,
       splitTextPropagator.scan (rangeOrder duplicatedTraceID) noFields = Return st
       /\ splitTextPropagator.requiredFieldCount st = 3
       /\ splitTextPropagator.JoinTrace op
            (TextCarrier {| SplitTextCarrier.TracerState := duplicatedTraceID;
                            SplitTextCarrier.TraceAttributes := a |})
            newID now σ
          = (Return (startSpanInternal
                       {| TraceID := splitTextPropagator.traceID st;
                          SpanID := newID;
                          ParentSpanID := splitTextPropagator.propagatedSpanID st;
                          Sampled := false;
                          traceAttrs := a |}
                       op now []),
             σ).
Proof.
  assert (E : map_to_list duplicatedTraceID
              = [("spanid", "3"); ("traceid", "1"); ("TraceID", "2")]%string)
    by (vm_compute; reflexivity).
  assert (Hno : fieldNameSampled ∉ loweredKeys duplicatedTraceID).
  { unfold loweredKeys. rewrite E. by_decision. }
  split; [done|].
  destruct (scan_valid (rangeOrder duplicatedTraceID) noFields) as (st & Hscan & Hcount).
  { rewrite rangeOrder_perm, E, !Forall_cons, Forall_nil. repeat split.
    - right. left. split; [vm_compute; reflexivity | by eexists].
    - left. split; [vm_compute; reflexivity | by eexists].
    - left. split; [vm_compute; reflexivity | by eexists]. }
  rewrite rangeOrder_length in Hcount.
  change (size duplicatedTraceID) with 3%nat in Hcount.
  change (splitTextPropagator.requiredFieldCount noFields + Z.of_nat 3) with 3 in Hcount.
  exists st. split; [done|]. split; [done|].
  assert (Hs : splitTextPropagator.sampled st = false).
  { apply (scan_keeps_sampled (rangeOrder duplicatedTraceID) noFields st); [|done].
    unfold loweredKeys in Hno. by rewrite rangeOrder_perm. }
  unfold splitTextPropagator.JoinTrace.
  cbn [SplitTextCarrier.TracerState SplitTextCarrier.TraceAttributes].
  fold noFields. rewrite Hscan. cbn. by rewrite Hcount, Hs.
Qed.

(** ** Carriers of the wrong type (C5) *)

(** C5, what the code does. [splitTextPropagator] and
    [splitBinaryPropagator] check the type of the carrier: on a carrier of
    another type both operations return [InvalidCarrier] and leave carrier
    and store as they were. [goHTTPPropagator] asserts the type without a
    check: on a carrier that is not an [http.Header] both operations
    panic. *)
Theorem wrong_carrier_type `{GoRuntime} (sc : StandardContext) (c : carrier)
    (σ : store) (op : string) (newID now : Z) :
  match c with
  | TextCarrier _ => True
  | _ => splitTextPropagator.InjectSpan sc c σ = (Fail InvalidCarrier, c, σ)
         /\ splitTextPropagator.JoinTrace op c newID now σ = (Fail InvalidCarrier, σ)
  end
  /\ match c with
     | BinaryCarrier _ => True
     | _ => splitBinaryPropagator.InjectSpan sc c σ = (Fail InvalidCarrier, c, σ)
            /\ splitBinaryPropagator.JoinTrace op c newID now σ = (Fail InvalidCarrier, σ)
     end
  /\ match c with
     | HTTPHeader _ => True
     | _ => goHTTPPropagator.InjectSpan sc c σ = (Panic TypeAssertion, c, σ)
            /\ goHTTPPropagator.JoinTrace op c newID now σ = (Panic TypeAssertion, σ)
     end.
Proof. by destruct c. Qed.

(** ** Who holds which attribute map (C6) *)

Section attribute_maps.
Context `{GoRuntime}.

(** [InjectSpan] of the text codec copies the attributes into a new map
    and leaves every map of the store, the sender's among them, as it was. *)
Lemma text_inject_copies (sc : StandardContext) (tc : SplitTextCarrier.t) (σ : store) :
  exists tc' σ',
    splitTextPropagator.InjectSpan sc (TextCarrier tc) σ = (Return (), TextCarrier tc', σ')
    /\ (SplitTextCarrier.TraceAttributes tc' ∉ dom σ)
    /\ deref σ' (SplitTextCarrier.TraceAttributes tc') = deref σ (traceAttrs sc)
    /\ forall a, a ∈ dom σ -> σ' !! a = σ !! a.
Proof.
  eexists _, _. split; [reflexivity|]. cbn.
  split; [apply is_fresh|]. split.
  - unfold deref at 1. rewrite lookup_insert_eq. apply fold_insert_range.
  - intros a Ha. rewrite lookup_insert_ne; [done|].
    intros <-. by apply (is_fresh (dom σ)).
Qed.

(** [InjectSpan] of the binary codec and of the HTTP wrapper do not touch
    the store. *)
Lemma binary_inject_store (sc : StandardContext) (c : carrier) (σ : store) :
  (splitBinaryPropagator.InjectSpan sc c σ).2 = σ
  /\ (goHTTPPropagator.InjectSpan sc c σ).2 = σ.
Proof. by destruct c. Qed.

(** [JoinTrace] of the binary codec gives the new context a map of its
    own, at an address the store did not have. *)
Lemma binary_join_fresh_map (op : string) (c : carrier) (newID now : Z)
    (σ σ' : store) (sp : Span) :
  splitBinaryPropagator.JoinTrace op c newID now σ = (Return sp, σ') ->
  (traceAttrs (Context sp) ∉ dom σ) /\ forall a, a ∈ dom σ -> σ' !! a = σ !! a.
Proof.
  unfold splitBinaryPropagator.JoinTrace. destruct c as [| bc | |]; try done.
  destruct (splitBinaryPropagator.decode bc) as [[[[t p] b] m]| |]; try done.
  intros [= <- <-]. cbn. split; [apply is_fresh|].
  intros a Ha. rewrite lookup_insert_ne; [done|].
  intros <-. by apply (is_fresh (dom σ)).
Qed.

End attribute_maps.

(** C6, what the code does in the text codec's [JoinTrace]: the context
    of the span it returns refers to the very map the carrier's
    [TraceAttributes] refers to, and no map is added to the store; the
    receiver does not get a map of its own. *)
Theorem text_join_shares_attributes `{GoRuntime} (op : string)
    (tc : SplitTextCarrier.t) (newID now : Z) (σ σ' : store) (sp : Span) :
  splitTextPropagator.JoinTrace op (TextCarrier tc) newID now σ = (Return sp, σ') ->
  traceAttrs (Context sp) = SplitTextCarrier.TraceAttributes tc /\ σ' = σ.
Proof.
  unfold splitTextPropagator.JoinTrace.
  destruct (splitTextPropagator.scan _ _) as [st| |]; cbn; [|done..].
  destruct (splitTextPropagator.requiredFieldCount st <? 3); [done|].
  by intros [= <- <-].
Qed.

Definition exampleTextCarrier : SplitTextCarrier.t :=
  {| SplitTextCarrier.TracerState :=
       <["sampled"%string := "true"%string]>
         (<["spanid"%string := "7"%string]> {["traceid"%string := "42"%string]});
     SplitTextCarrier.TraceAttributes := 1%positive |}.

Lemma text_join_shares_attributes_witness :
  splitTextPropagator.JoinTrace (H := forwardRuntime false) "op"
    (TextCarrier exampleTextCarrier) 99 1000 exampleStore
  = (Return (startSpanInternal
               {| TraceID := 42; SpanID := 99; ParentSpanID := 7; Sampled := true;
                  traceAttrs := 1%positive |} "op" 1000 []),
     exampleStore)
  /\ traceAttrs {| TraceID := 42; SpanID := 99; ParentSpanID := 7; Sampled := true;
                   traceAttrs := 1%positive |}
     = SplitTextCarrier.TraceAttributes exampleTextCarrier
  /\ exampleStore = exampleStore.
Proof.
  assert (E : splitTextPropagator.JoinTrace (H := forwardRuntime false) "op"
                (TextCarrier exampleTextCarrier) 99 1000 exampleStore
              = (Return (startSpanInternal
                           {| TraceID := 42; SpanID := 99; ParentSpanID := 7;
                              Sampled := true; traceAttrs := 1%positive |}
                           "op" 1000 []),
                 exampleStore)) by (vm_compute; reflexivity).
  split; [exact E|].
  exact (text_join_shares_attributes (H := forwardRuntime false) "op"
           exampleTextCarrier 99 1000 exampleStore exampleStore _ E).
Defined.


(** * Further properties of the propagators *)

(** ** strconv: what [FormatInt] and [FormatBool] print is parsed back *)

Lemma digit_not_sign (c : ascii) (d : Z) :
  strconv.digit c = Some d -> Ascii.eqb c "+" = false /\ Ascii.eqb c "-" = false.
Proof.
  intros Hd. split.
  - destruct (Ascii.eqb_spec c "+") as [->|]; [vm_compute in Hd; discriminate|done].
  - destruct (Ascii.eqb_spec c "-") as [->|]; [vm_compute in Hd; discriminate|done].
Qed.

Lemma digits_uint_acc (d : Decimal.uint) (acc : positive) :
  strconv.digits (NilEmpty.string_of_uint d) (Zpos acc)
  = Some (Zpos (Pos.of_uint_acc d acc)).
Proof.
  revert acc. induction d; intros acc; cbn [NilEmpty.string_of_uint Pos.of_uint_acc];
    [done|..].
  all: cbn [strconv.digits]; change (strconv.digit _) with (Some 0) ||
       change (strconv.digit _) with (Some 1) || change (strconv.digit _) with (Some 2) ||
       change (strconv.digit _) with (Some 3) || change (strconv.digit _) with (Some 4) ||
       change (strconv.digit _) with (Some 5) || change (strconv.digit _) with (Some 6) ||
       change (strconv.digit _) with (Some 7) || change (strconv.digit _) with (Some 8) ||
       change (strconv.digit _) with (Some 9).
  all: cbn [mbind option_bind]; rewrite <- IHd; f_equal; lia.
Qed.

Lemma digits_uint (d : Decimal.uint) :
  strconv.digits (NilEmpty.string_of_uint d) 0 = Some (Z.of_N (Pos.of_uint d)).
Proof.
  induction d; cbn [NilEmpty.string_of_uint Pos.of_uint]; [done|..].
  all: cbn [strconv.digits]; change (strconv.digit _) with (Some 0) ||
       change (strconv.digit _) with (Some 1) || change (strconv.digit _) with (Some 2) ||
       change (strconv.digit _) with (Some 3) || change (strconv.digit _) with (Some 4) ||
       change (strconv.digit _) with (Some 5) || change (strconv.digit _) with (Some 6) ||
       change (strconv.digit _) with (Some 7) || change (strconv.digit _) with (Some 8) ||
       change (strconv.digit _) with (Some 9).
  all: cbn [mbind option_bind]; try exact IHd.
  all: cbn [Z.of_N]; rewrite <- digits_uint_acc; f_equal.
Qed.

(** The decimal digits of a positive number: a non-empty string that
    starts with a digit and reads back as the number. *)
Lemma digits_of_positive (p : positive) :
  exists c s,
    NilEmpty.string_of_uint (Pos.to_uint p) = String c s
    /\ Ascii.eqb c "+" = false /\ Ascii.eqb c "-" = false
    /\ strconv.digits (String c s) 0 = Some (Zpos p).
Proof.
  pose proof (digits_uint (Pos.to_uint p)) as Hd.
  rewrite DecimalPos.Unsigned.of_to in Hd. cbn [Z.of_N] in Hd.
  destruct (NilEmpty.string_of_uint (Pos.to_uint p)) as [|c s] eqn:E;
    [cbn in Hd; discriminate|].
  exists c, s. split; [done|]. cbn [strconv.digits] in Hd.
  destruct (strconv.digit c) as [x|] eqn:Ec; [|discriminate].
  destruct (digit_not_sign c x Ec) as [? ?]. repeat split; try done.
  cbn [strconv.digits]. by rewrite Ec.
Qed.

Lemma FormatInt_positive (p : positive) :
  strconv.FormatInt (Zpos p) = NilEmpty.string_of_uint (Pos.to_uint p).
Proof.
  unfold strconv.FormatInt. cbn [Z.to_int NilZero.string_of_int].
  unfold NilZero.string_of_uint.
  pose proof (DecimalPos.Unsigned.to_uint_nonnil p).
  by destruct (Pos.to_uint p).
Qed.

Lemma FormatInt_negative (p : positive) :
  strconv.FormatInt (Zneg p) = String "-" (NilEmpty.string_of_uint (Pos.to_uint p)).
Proof.
  unfold strconv.FormatInt. cbn [Z.to_int NilZero.string_of_int].
  unfold NilZero.string_of_uint.
  pose proof (DecimalPos.Unsigned.to_uint_nonnil p).
  by destruct (Pos.to_uint p).
Qed.

Lemma ParseInt_FormatInt (z : Z) :
  is_intN 64 z -> strconv.ParseInt (strconv.FormatInt z) = Some z.
Proof.
  intros [Hlo Hhi]. change (2 ^ (64 - 1)) with (2 ^ 63) in *.
  destruct z as [|p|p].
  - reflexivity.
  - rewrite FormatInt_positive.
    destruct (digits_of_positive p) as (c & s & -> & Hp & Hm & Hd).
    unfold strconv.ParseInt. rewrite Hp, Hm, Hd. cbn [mbind option_bind].
    by destruct (Z.leb_spec (2 ^ 63) (Z.pos p)); [lia|].
  - rewrite FormatInt_negative.
    destruct (digits_of_positive p) as (c & s & E & _ & _ & Hd).
    unfold strconv.ParseInt. change (Ascii.eqb "-" "+") with false.
    change (Ascii.eqb "-" "-") with true. cbn iota. rewrite E, Hd.
    cbn [mbind option_bind].
    by destruct (Z.ltb_spec (2 ^ 63) (Z.pos p)); [lia|].
Qed.

Lemma ParseBool_FormatBool (b : bool) :
  strconv.ParseBool (strconv.FormatBool b) = Some b.
Proof. by destruct b. Qed.

(** ** Text codec: what a scan that goes through has read *)

Section text_scan.
Context `{GoRuntime}.

(** The value of a field as its parser gives it, and as [JoinTrace] holds
    it in its local variables. *)
Definition parseAs (name v : string) : option (Z + bool) :=
  if String.eqb name fieldNameSampled then inr <$> strconv.ParseBool v
  else inl <$> strconv.ParseInt v.

Definition valueOf (st : splitTextPropagator.fields) (name : string) : Z + bool :=
  if String.eqb name fieldNameTraceID then inl (splitTextPropagator.traceID st)
  else if String.eqb name fieldNameSpanID
       then inl (splitTextPropagator.propagatedSpanID st)
       else inr (splitTextPropagator.sampled st).

Definition fieldNames : list string :=
  [fieldNameTraceID; fieldNameSpanID; fieldNameSampled].

Lemma fieldNames_cases (n : string) :
  n ∈ fieldNames ->
  n = fieldNameTraceID \/ n = fieldNameSpanID \/ n = fieldNameSampled.
Proof. unfold fieldNames. rewrite !elem_of_cons, elem_of_nil. tauto. Qed.

(** One iteration that goes through: the entry is a recognized field, its
    parsed value is stored under its name, the other two variables are
    kept and the count grows by one. *)
Lemma field_returns (st st1 : splitTextPropagator.fields) (k v : string) :
  splitTextPropagator.field st (k, v) = Return st1 ->
  validField (k, v)
  /\ parseAs (strings.ToLower k) v = Some (valueOf st1 (strings.ToLower k))
  /\ (forall n, n ∈ fieldNames -> n ≠ strings.ToLower k ->
                valueOf st1 n = valueOf st n)
  /\ splitTextPropagator.requiredFieldCount st1
     = splitTextPropagator.requiredFieldCount st + 1.
Proof.
  unfold splitTextPropagator.field, validField. cbn [fst snd].
  destruct (String.eqb_spec (strings.ToLower k) fieldNameTraceID) as [E|_];
    [|destruct (String.eqb_spec (strings.ToLower k) fieldNameSpanID) as [E|_];
      [|destruct (String.eqb_spec (strings.ToLower k) fieldNameSampled) as [E|_];
        [|done]]].
  all: rewrite E.
  1,2: destruct (strconv.ParseInt v) as [x|] eqn:Ev; [|done].
  3: destruct (strconv.ParseBool v) as [x|] eqn:Ev; [|done].
  all: cbn; intros [= <-]; unfold parseAs; rewrite Ev.
  all: split; [eauto 6|]; split; [reflexivity|]; split; [|reflexivity].
  all: intros n [-> | [-> | ->]]%fieldNames_cases Hn; done.
Qed.

Lemma scan_returns (l : list (string * string)) (st st' : splitTextPropagator.fields) :
  splitTextPropagator.scan l st = Return st' ->
  Forall validField l
  /\ splitTextPropagator.requiredFieldCount st'
     = splitTextPropagator.requiredFieldCount st + Z.of_nat (length l).
Proof.
  revert st. induction l as [|[k v] l IH]; intros st Hscan.
  - cbn in Hscan. injection Hscan as <-. split; [constructor|]. cbn. lia.
  - cbn [splitTextPropagator.scan] in Hscan.
    destruct (splitTextPropagator.field st (k, v)) as [st1| |] eqn:E; [|done..].
    cbn in Hscan. destruct (field_returns _ _ _ _ E) as (Hv & _ & _ & Hc).
    destruct (IH st1 Hscan) as [Hl Hc']. split; [by constructor|].
    rewrite Hc', Hc. cbn [length]. lia.
Qed.

(** With keys that differ even when case is ignored, the scan ends with,
    under each name, the parsed value of the entry of that name, and with
    the initial value if there is no such entry. *)
Lemma scan_values (l : list (string * string)) :
  NoDup (strings.ToLower <$> l.*1) ->
  forall (st st' : splitTextPropagator.fields) (n : string),
    splitTextPropagator.scan l st = Return st' -> n ∈ fieldNames ->
    (n ∉ (strings.ToLower <$> l.*1) -> valueOf st' n = valueOf st n)
    /\ (forall k v, (k, v) ∈ l -> strings.ToLower k = n ->
                    parseAs n v = Some (valueOf st' n)).
Proof.
  induction l as [|[k v] l IH]; intros Hnd st st' n Hscan Hn.
  - cbn in Hscan. injection Hscan as <-. split; [done|].
    intros k v Hin. by apply elem_of_nil in Hin.
  - cbn [splitTextPropagator.scan] in Hscan.
    destruct (splitTextPropagator.field st (k, v)) as [st1| |] eqn:E; [|done..].
    cbn in Hscan. rewrite !fmap_cons in Hnd. cbn [fst] in Hnd.
    apply NoDup_cons in Hnd as [Hk Hnd].
    destruct (field_returns _ _ _ _ E) as (_ & Hp & Hframe & _).
    destruct (IH Hnd st1 st' n Hscan Hn) as [Hkeep Hread].
    destruct (IH Hnd st1 st' (strings.ToLower k) Hscan) as [Hkeepk _].
    { destruct (field_returns _ _ _ _ E) as (Hv & _).
      unfold validField in Hv. cbn [fst snd] in Hv.
      destruct Hv as [[-> _]|[[-> _]|[-> _]]];
        unfold fieldNames; rewrite !elem_of_cons; tauto. }
    split.
    + rewrite !fmap_cons, not_elem_of_cons. cbn [fst]. intros [Hne Hnot].
      rewrite (Hkeep Hnot). by apply Hframe.
    + intros k0 v0 [[= -> ->] | Hin]%elem_of_cons Hk0.
      * subst n. by rewrite Hp, (Hkeepk Hk).
      * by apply (Hread k0 v0).
Qed.

(** The three fields read from a list of recognized entries with distinct
    names that has an entry for each name. *)
Lemma scan_three_fields (l : list (string * string))
    (kt vt ks vs kb vb : string) (t s : Z) (b : bool) :
  NoDup (strings.ToLower <$> l.*1) -> Forall validField l ->
  (kt, vt) ∈ l -> strings.ToLower kt = fieldNameTraceID -> strconv.ParseInt vt = Some t ->
  (ks, vs) ∈ l -> strings.ToLower ks = fieldNameSpanID -> strconv.ParseInt vs = Some s ->
  (kb, vb) ∈ l -> strings.ToLower kb = fieldNameSampled -> strconv.ParseBool vb = Some b ->
  splitTextPropagator.scan l noFields
  = Return {| splitTextPropagator.traceID := t;
              splitTextPropagator.propagatedSpanID := s;
              splitTextPropagator.sampled := b;
              splitTextPropagator.requiredFieldCount := 3 |}.
Proof.
  intros Hnd Hall Ht Ekt Evt Hs Eks Evs Hb Ekb Evb.
  destruct (scan_valid l noFields Hall) as (st & Hscan & Hcount).
  rewrite Hscan. f_equal.
  assert (Hlen : length l = 3%nat).
  { apply Nat.le_antisymm.
    - rewrite <- (length_fmap fst), <- (length_fmap strings.ToLower).
      change 3%nat with (length fieldNames).
      apply submseteq_length, NoDup_submseteq; [done|].
      intros n (k0 & -> & ([k1 v1] & -> & Hin)%list_elem_of_fmap)%list_elem_of_fmap.
      rewrite Forall_forall in Hall. specialize (Hall _ Hin).
      unfold validField, fieldNames in *. cbn [fst snd] in *. rewrite !elem_of_cons.
      destruct Hall as [[-> _] | [[-> _] | [-> _]]]; tauto.
    - rewrite <- (length_fmap fst l), <- (length_fmap strings.ToLower (l.*1)).
      change 3%nat with (length [fieldNameTraceID; fieldNameSpanID; fieldNameSampled]).
      apply submseteq_length, NoDup_submseteq; [by_decision|].
      intros n [-> | [-> | [-> | []%elem_of_nil]%elem_of_cons]%elem_of_cons]%elem_of_cons.
      + rewrite <- Ekt. apply (list_elem_of_fmap_2 strings.ToLower (l.*1) kt), list_elem_of_fmap.
        by exists (kt, vt).
      + rewrite <- Eks. apply (list_elem_of_fmap_2 strings.ToLower (l.*1) ks), list_elem_of_fmap.
        by exists (ks, vs).
      + rewrite <- Ekb. apply (list_elem_of_fmap_2 strings.ToLower (l.*1) kb), list_elem_of_fmap.
        by exists (kb, vb). }
  rewrite Hlen in Hcount. cbn in Hcount.
  destruct (scan_values l Hnd noFields st fieldNameTraceID Hscan) as [_ Rt];
    [by_decision|].
  destruct (scan_values l Hnd noFields st fieldNameSpanID Hscan) as [_ Rs];
    [by_decision|].
  destruct (scan_values l Hnd noFields st fieldNameSampled Hscan) as [_ Rb];
    [by_decision|].
  specialize (Rt kt vt Ht Ekt). specialize (Rs ks vs Hs Eks).
  specialize (Rb kb vb Hb Ekb). unfold parseAs in Rt, Rs, Rb.
  rewrite Evt in Rt. rewrite Evs in Rs. rewrite Evb in Rb.
  cbn in Rt, Rs, Rb. injection Rt as Rt. injection Rs as Rs. injection Rb as Rb.
  destruct st as [t' s' b' c']. cbn in *. by subst.
Qed.

(** A scan whose keys are all recognized stops with [TraceCorrupted] at
    the first value that does not parse. *)
Lemma scan_corrupted (l : list (string * string)) (st : splitTextPropagator.fields) :
  Forall (fun kv => knownField kv.1) l ->
  Exists (fun kv => ~ validField kv) l ->
  splitTextPropagator.scan l st = Fail TraceCorrupted.
Proof.
  intros Hl. revert st. induction Hl as [|[k v] l Hk Hl IH]; intros st Hex.
  - by apply Exists_nil in Hex.
  - cbn [splitTextPropagator.scan].
    destruct (splitTextPropagator.field st (k, v)) as [st1|e|p] eqn:E.
    + destruct (field_returns _ _ _ _ E) as (Hv & _).
      apply Exists_cons in Hex as [Hex|Hex]; [done|]. cbn. by apply IH.
    + cbn. f_equal. unfold splitTextPropagator.field in E.
      apply field_known_cases in Hk. cbn [fst] in Hk.
      destruct (String.eqb_spec (strings.ToLower k) fieldNameTraceID) as [Ek|Nt];
        [destruct (strconv.ParseInt v); cbn in E; congruence|].
      destruct (String.eqb_spec (strings.ToLower k) fieldNameSpanID) as [Ek|Ns];
        [destruct (strconv.ParseInt v); cbn in E; congruence|].
      destruct (String.eqb_spec (strings.ToLower k) fieldNameSampled) as [Ek|Nb];
        [destruct (strconv.ParseBool v); cbn in E; congruence|].
      tauto.
    + unfold splitTextPropagator.field in E.
      destruct (String.eqb_spec (strings.ToLower k) fieldNameTraceID) as [Ek|Nt];
        [destruct (strconv.ParseInt v); cbn in E; congruence|].
      destruct (String.eqb_spec (strings.ToLower k) fieldNameSpanID) as [Ek|Ns];
        [destruct (strconv.ParseInt v); cbn in E; congruence|].
      destruct (String.eqb_spec (strings.ToLower k) fieldNameSampled) as [Ek|Nb];
        [destruct (strconv.ParseBool v); cbn in E; congruence|].
      done.
Qed.

End text_scan.

(** ** Text codec: joins that go through, and joins of damaged values *)

(** X2. A state map whose entries are recognized fields with values that
    parse, under keys that differ even when case is ignored, and which has
    an entry for each of the three names: whatever the case of the keys
    and the order of the loop, [JoinTrace] returns the span whose context
    has the parsed trace id as [TraceID], the parsed span id as
    [ParentSpanID], the parsed flag as [Sampled], [newID] as [SpanID] and
    the carrier's attribute map; the store is not changed. *)
Theorem text_join_reads_fields `{GoRuntime} (op : string) (tc : SplitTextCarrier.t)
    (newID now : Z) (σ : store) (kt vt ks vs kb vb : string) (t s : Z) (b : bool) :
  NoDup (loweredKeys (SplitTextCarrier.TracerState tc)) ->
  Forall validField (map_to_list (SplitTextCarrier.TracerState tc)) ->
  SplitTextCarrier.TracerState tc !! kt = Some vt ->
  strings.ToLower kt = fieldNameTraceID -> strconv.ParseInt vt = Some t ->
  SplitTextCarrier.TracerState tc !! ks = Some vs ->
  strings.ToLower ks = fieldNameSpanID -> strconv.ParseInt vs = Some s ->
  SplitTextCarrier.TracerState tc !! kb = Some vb ->
  strings.ToLower kb = fieldNameSampled -> strconv.ParseBool vb = Some b ->
  splitTextPropagator.JoinTrace op (TextCarrier tc) newID now σ
  = (Return (startSpanInternal
               {| TraceID := t; SpanID := newID; ParentSpanID := s; Sampled := b;
                  traceAttrs := SplitTextCarrier.TraceAttributes tc |}
               op now []),
     σ).
Proof.
  intros Hnd Hall Ht Ekt Evt Hs Eks Evs Hb Ekb Evb.
  unfold splitTextPropagator.JoinTrace. fold noFields.
  rewrite (scan_three_fields _ kt vt ks vs kb vb t s b); try done.
  - unfold loweredKeys in Hnd. by rewrite rangeOrder_perm.
  - by rewrite rangeOrder_perm.
  - rewrite rangeOrder_perm. by apply elem_of_map_to_list.
  - rewrite rangeOrder_perm. by apply elem_of_map_to_list.
  - rewrite rangeOrder_perm. by apply elem_of_map_to_list.
Qed.

Definition mixedCaseCarrier : SplitTextCarrier.t :=
  {| SplitTextCarrier.TracerState :=
       <["TraceID"%string := "42"%string]>
         (<["SPANID"%string := "-7"%string]> {["Sampled"%string := "T"%string]});
     SplitTextCarrier.TraceAttributes := 1%positive |}.

Lemma mixedCaseCarrier_entries :
  map_to_list (SplitTextCarrier.TracerState mixedCaseCarrier)
  = [("Sampled", "T"); ("SPANID", "-7"); ("TraceID", "42")]%string.
Proof. vm_compute. reflexivity. Qed.

Lemma text_join_reads_fields_witness :
  splitTextPropagator.JoinTrace (H := reverseRuntime false) "op"
    (TextCarrier mixedCaseCarrier) 99 1000 exampleStore
  = (Return (startSpanInternal
               {| TraceID := 42; SpanID := 99; ParentSpanID := -7; Sampled := true;
                  traceAttrs := 1%positive |}
               "op" 1000 []),
     exampleStore).
Proof.
  apply (text_join_reads_fields (H := reverseRuntime false) "op" mixedCaseCarrier
           99 1000 exampleStore "TraceID" "42" "SPANID" "-7" "Sampled" "T");
    try (vm_compute; reflexivity).
  - unfold loweredKeys. rewrite mixedCaseCarrier_entries. by_decision.
  - rewrite mixedCaseCarrier_entries, !Forall_cons, Forall_nil. repeat split.
    + right. right. split; [vm_compute; reflexivity | by eexists].
    + right. left. split; [vm_compute; reflexivity | by eexists].
    + left. split; [vm_compute; reflexivity | by eexists].
Defined.

(** X3. [JoinTrace] of the text codec returns a span only if every entry
    of the state map is a recognized field with a value that parses and the
    map has at least three entries; the span then has [newID] as its
    [SpanID], and the operation name and start time it was given. *)
Theorem text_join_returns_only_if `{GoRuntime} (op : string)
    (tc : SplitTextCarrier.t) (newID now : Z) (σ σ' : store) (sp : Span) :
  splitTextPropagator.JoinTrace op (TextCarrier tc) newID now σ = (Return sp, σ') ->
  Forall validField (map_to_list (SplitTextCarrier.TracerState tc))
  /\ (3 <= size (SplitTextCarrier.TracerState tc))%nat
  /\ SpanID (Context sp) = newID /\ Operation sp = op /\ Start sp = now.
Proof.
  unfold splitTextPropagator.JoinTrace. fold noFields.
  destruct (splitTextPropagator.scan _ _) as [st| |] eqn:Hscan; cbn; [|done..].
  apply scan_returns in Hscan as [Hall Hcount].
  rewrite rangeOrder_perm in Hall. rewrite rangeOrder_length in Hcount.
  cbn in Hcount.
  destruct (Z.ltb_spec (splitTextPropagator.requiredFieldCount st) 3); [done|].
  intros [= <- <-]. cbn. repeat split; [done|lia].
Qed.

Lemma text_join_returns_only_if_witness :
  Forall (validField (H := forwardRuntime false))
         (map_to_list (SplitTextCarrier.TracerState exampleTextCarrier))
  /\ (3 <= size (SplitTextCarrier.TracerState exampleTextCarrier))%nat
  /\ SpanID {| TraceID := 42; SpanID := 99; ParentSpanID := 7; Sampled := true;
               traceAttrs := 1%positive |} = 99
  /\ "op"%string = "op"%string /\ 1000 = 1000.
Proof.
  apply (text_join_returns_only_if (H := forwardRuntime false) "op"
           exampleTextCarrier 99 1000 exampleStore exampleStore
           (startSpanInternal
              {| TraceID := 42; SpanID := 99; ParentSpanID := 7; Sampled := true;
                 traceAttrs := 1%positive |} "op" 1000 [])).
  vm_compute. reflexivity.
Defined.

(** X4. If every key of the state map is one of the three names
    (ignoring case) and some value does not parse as the type of its
    field, [JoinTrace] returns [TraceCorrupted], whatever the order of the
    loop and however many fields there are. *)
Theorem text_join_corrupted_value `{GoRuntime} (op : string)
    (tc : SplitTextCarrier.t) (newID now : Z) (σ : store) :
  Forall (fun kv => knownField kv.1) (map_to_list (SplitTextCarrier.TracerState tc)) ->
  Exists (fun kv => ~ validField kv) (map_to_list (SplitTextCarrier.TracerState tc)) ->
  splitTextPropagator.JoinTrace op (TextCarrier tc) newID now σ
  = (Fail TraceCorrupted, σ).
Proof.
  intros Hall Hex. unfold splitTextPropagator.JoinTrace.
  rewrite scan_corrupted; [done|by rewrite rangeOrder_perm..].
Qed.

Definition badSpanIDCarrier : SplitTextCarrier.t :=
  {| SplitTextCarrier.TracerState :=
       <["traceid"%string := "42"%string]>
         (<["spanid"%string := "0x7"%string]> {["sampled"%string := "true"%string]});
     SplitTextCarrier.TraceAttributes := 1%positive |}.

Lemma badSpanIDCarrier_entries :
  map_to_list (SplitTextCarrier.TracerState badSpanIDCarrier)
  = [("sampled", "true"); ("spanid", "0x7"); ("traceid", "42")]%string.
Proof. vm_compute. reflexivity. Qed.

Lemma text_join_corrupted_value_witness :
  splitTextPropagator.JoinTrace (H := forwardRuntime false) "op"
    (TextCarrier badSpanIDCarrier) 99 1000 exampleStore
  = (Fail TraceCorrupted, exampleStore).
Proof.
  apply (text_join_corrupted_value (H := forwardRuntime false)).
  - rewrite badSpanIDCarrier_entries, !Forall_cons, Forall_nil.
    repeat split; by_decision.
  - rewrite badSpanIDCarrier_entries. apply Exists_cons_tl, Exists_cons_hd.
    unfold validField. cbn [fst snd].
    intros [[E _] | [[_ [x E]] | [E _]]]; vm_compute in E; discriminate.
Defined.

(** ** Text codec: round trip *)

Section text_roundtrip.
Context `{GoRuntime}.

(** The state map [InjectSpan] writes. *)
Definition injectedState (sc : StandardContext) : gmap string string :=
  <[fieldNameSampled := strconv.FormatBool (Sampled sc)]>
    (<[fieldNameSpanID := strconv.FormatInt (SpanID sc)]>
       {[fieldNameTraceID := strconv.FormatInt (TraceID sc)]}).

Lemma injectedState_entries (sc : StandardContext) :
  map_to_list (injectedState sc)
  ≡ₚ [(fieldNameSampled, strconv.FormatBool (Sampled sc));
      (fieldNameSpanID, strconv.FormatInt (SpanID sc));
      (fieldNameTraceID, strconv.FormatInt (TraceID sc))].
Proof.
  unfold injectedState.
  rewrite map_to_list_insert
    by (by rewrite lookup_insert_ne, lookup_singleton_ne).
  rewrite map_to_list_insert by (by rewrite lookup_singleton_ne).
  by rewrite map_to_list_singleton.
Qed.

Lemma injectedState_scan (sc : StandardContext) :
  is_intN 64 (TraceID sc) -> is_intN 64 (SpanID sc) ->
  splitTextPropagator.scan (rangeOrder (injectedState sc)) noFields
  = Return {| splitTextPropagator.traceID := TraceID sc;
              splitTextPropagator.propagatedSpanID := SpanID sc;
              splitTextPropagator.sampled := Sampled sc;
              splitTextPropagator.requiredFieldCount := 3 |}.
Proof.
  intros Ht Hs.
  assert (Et : strings.ToLower fieldNameTraceID = fieldNameTraceID)
    by (vm_compute; reflexivity).
  assert (Es : strings.ToLower fieldNameSpanID = fieldNameSpanID)
    by (vm_compute; reflexivity).
  assert (Eb : strings.ToLower fieldNameSampled = fieldNameSampled)
    by (vm_compute; reflexivity).
  apply (scan_three_fields _ fieldNameTraceID (strconv.FormatInt (TraceID sc))
           fieldNameSpanID (strconv.FormatInt (SpanID sc))
           fieldNameSampled (strconv.FormatBool (Sampled sc)));
    try done; try (by apply ParseInt_FormatInt); try apply ParseBool_FormatBool.
  - rewrite rangeOrder_perm, injectedState_entries. cbn [fmap list_fmap fst].
    rewrite Et, Es, Eb. by_decision.
  - rewrite rangeOrder_perm, injectedState_entries, !Forall_cons, Forall_nil.
    unfold validField. cbn [fst snd].
    rewrite !ParseInt_FormatInt, ParseBool_FormatBool by done.
    repeat split; eauto 6.
  - rewrite rangeOrder_perm, injectedState_entries, !elem_of_cons. tauto.
  - rewrite rangeOrder_perm, injectedState_entries, !elem_of_cons. tauto.
  - rewrite rangeOrder_perm, injectedState_entries, !elem_of_cons. tauto.
Qed.

End text_roundtrip.

(** X1. For every context with [int64] identifiers and every attribute
    map, [JoinTrace] of the text codec applied to the carrier that
    [InjectSpan] filled returns a span whose context has the original
    [TraceID] and [Sampled] flag, the original [SpanID] as [ParentSpanID],
    [newID] as [SpanID], and an attribute map equal to the original's, held
    at an address the store did not have before the injection. *)
Theorem text_roundtrip `{GoRuntime} (sc : StandardContext)
    (tc0 : SplitTextCarrier.t) (σ : store) (op : string) (newID now : Z) :
  is_intN 64 (TraceID sc) -> is_intN 64 (SpanID sc) ->
  exists c σ1 sp,
    splitTextPropagator.InjectSpan sc (TextCarrier tc0) σ = (Return (), c, σ1)
    /\ splitTextPropagator.JoinTrace op c newID now σ1 = (Return sp, σ1)
    /\ TraceID (Context sp) = TraceID sc
    /\ Sampled (Context sp) = Sampled sc
    /\ ParentSpanID (Context sp) = SpanID sc
    /\ SpanID (Context sp) = newID
    /\ deref σ1 (traceAttrs (Context sp)) = deref σ (traceAttrs sc)
    /\ (traceAttrs (Context sp) ∉ dom σ).
Proof.
  intros Ht Hs. eexists _, _, _. split; [reflexivity|].
  unfold splitTextPropagator.JoinTrace.
  cbn [SplitTextCarrier.TracerState SplitTextCarrier.TraceAttributes].
  fold (injectedState sc). fold noFields. rewrite injectedState_scan by done.
  cbn. split; [reflexivity|]. cbn. repeat split.
  - unfold deref at 1. rewrite lookup_insert_eq. apply fold_insert_range.
  - apply is_fresh.
Qed.

Lemma text_roundtrip_witness :
  exists c σ1 sp,
    splitTextPropagator.InjectSpan (H := reverseRuntime false) exampleContext
      (TextCarrier exampleTextCarrier) exampleStore = (Return (), c, σ1)
    /\ splitTextPropagator.JoinTrace (H := reverseRuntime false) "op" c 99 1000 σ1
       = (Return sp, σ1)
    /\ TraceID (Context sp) = 42
    /\ Sampled (Context sp) = true
    /\ ParentSpanID (Context sp) = 7
    /\ SpanID (Context sp) = 99
    /\ deref σ1 (traceAttrs (Context sp)) = {[ "user"%string := "alice"%string ]}
    /\ (traceAttrs (Context sp) ∉ dom exampleStore).
Proof.
  apply (text_roundtrip (H := reverseRuntime false) exampleContext
           exampleTextCarrier exampleStore "op" 99 1000);
    apply exampleContext_ids.
Defined.

(** ** Binary codec: what [JoinTrace] reads from any well-formed buffers *)

Lemma binary_get_single (b : byte) : binary.get [b] = Z_of_byte b.
Proof.
  unfold binary.get. cbn [fold_left]. by rewrite Z.shiftl_0_l, Z.lor_0_l.
Qed.

Lemma read_uint8_cons (b : byte) (r : list byte) :
  binary.read_uint8 (b :: r) = Some (Z_of_byte b, r).
Proof.
  unfold binary.read_uint8, binary.ReadFull.
  rewrite decide_True by (cbn; lia). cbn. by rewrite binary_get_single.
Qed.

Lemma fold_insert_keeps (l : list (string * string)) (acc : gmap string string)
    (k : string) :
  k ∉ l.*1 ->
  fold_left (fun m kv => <[kv.1 := kv.2]> m) l acc !! k = acc !! k.
Proof.
  revert acc. induction l as [|[k' v'] l IH]; intros acc Hk; [done|].
  rewrite fmap_cons, not_elem_of_cons in Hk. destruct Hk as [Hne Hk].
  cbn [fold_left]. rewrite IH by done. by apply lookup_insert_ne.
Qed.

Section binary_buffers.
Context `{GoRuntime}.

(** With [m] more iterations than entries, the loop reads the entries and
    goes on with what follows them. *)
Lemma readAttrs_entries (l : list (string * string)) (m : nat) (rest : list byte)
    (acc : gmap string string) :
  Forall wireAttr l ->
  splitBinaryPropagator.readAttrs (length l + m)
    (flat_map splitBinaryPropagator.writeAttr l ++ rest) acc
  = splitBinaryPropagator.readAttrs m rest
      (fold_left (fun m kv => <[kv.1 := kv.2]> m) l acc).
Proof.
  intros Hl. revert acc. induction Hl as [|kv l Hkv Hl IH]; intros acc; [done|].
  cbn [length flat_map fold_left Nat.add]. rewrite <- app_assoc.
  rewrite readAttrs_writeAttr by done. apply IH.
Qed.

(** The two buffers as [JoinTrace] reads them: a trace id, a span id and
    a flag byte, then any bytes; a count, that many entries, then any
    bytes. *)
Lemma decode_buffers (t s : Z) (b : byte) (j1 : list byte)
    (l : list (string * string)) (j2 : list byte) :
  is_intN 64 t -> is_intN 64 s ->
  Z.of_nat (length l) < 2 ^ 31 -> Forall wireAttr l ->
  splitBinaryPropagator.decode
    {| SplitBinaryCarrier.TracerState :=
         binary.write_int64 t ++ binary.write_int64 s ++ b :: j1;
       SplitBinaryCarrier.TraceAttributes :=
         binary.write_int32 (Z.of_nat (length l))
         ++ flat_map splitBinaryPropagator.writeAttr l ++ j2 |}
  = Return (t, s, Z_of_byte b, fold_left (fun m kv => <[kv.1 := kv.2]> m) l ∅).
Proof.
  intros Ht Hs Hn Hl. unfold splitBinaryPropagator.decode.
  cbn [SplitBinaryCarrier.TracerState SplitBinaryCarrier.TraceAttributes].
  rewrite read_int64_write by done. cbn.
  rewrite read_int64_write by done. cbn.
  rewrite read_uint8_cons. cbn.
  rewrite read_int32_write
    by (unfold is_intN; change (2 ^ (32 - 1)) with (2 ^ 31); lia).
  cbn. unfold splitBinaryPropagator.makeMap.
  destruct (Z.ltb_spec (Z.of_nat (length l)) 0); [lia|]. cbn.
  rewrite Nat2Z.id, <- (Nat.add_0_r (length l)), readAttrs_entries by done.
  reflexivity.
Qed.

End binary_buffers.

(** X5. Take a state buffer made of a big-endian trace id, a big-endian
    span id and one flag byte, followed by any bytes, and an attributes
    buffer made of a count, that many length-prefixed entries, followed by
    any bytes. [JoinTrace] returns the span whose context has that trace
    id, that span id as parent, [Sampled] set exactly when the flag byte is
    not zero, and the entries as attribute map at a new address; the bytes
    after the 17th and after the last entry are not looked at. *)
Theorem binary_join_layout `{GoRuntime} (op : string) (newID now : Z) (σ : store)
    (t s : Z) (b : byte) (j1 : list byte) (l : list (string * string))
    (j2 : list byte) :
  is_intN 64 t -> is_intN 64 s ->
  Z.of_nat (length l) < 2 ^ 31 -> Forall wireAttr l ->
  splitBinaryPropagator.JoinTrace op
    (BinaryCarrier
       {| SplitBinaryCarrier.TracerState :=
            binary.write_int64 t ++ binary.write_int64 s ++ b :: j1;
          SplitBinaryCarrier.TraceAttributes :=
            binary.write_int32 (Z.of_nat (length l))
            ++ flat_map splitBinaryPropagator.writeAttr l ++ j2 |})
    newID now σ
  = (Return (startSpanInternal
               {| TraceID := t; SpanID := newID; ParentSpanID := s;
                  Sampled := negb (Z_of_byte b =? 0);
                  traceAttrs := fresh (dom σ) |}
               op now []),
     <[fresh (dom σ) := fold_left (fun m kv => <[kv.1 := kv.2]> m) l ∅]> σ).
Proof.
  intros Ht Hs Hn Hl. unfold splitBinaryPropagator.JoinTrace.
  by rewrite decode_buffers.
Qed.

Lemma userAlice_wire : Forall wireAttr [("user", "alice")%string].
Proof. repeat constructor; vm_compute; reflexivity. Qed.

Lemma binary_join_layout_witness :
  splitBinaryPropagator.JoinTrace (H := forwardRuntime false) "op"
    (BinaryCarrier
       {| SplitBinaryCarrier.TracerState :=
            binary.write_int64 42 ++ binary.write_int64 (-7) ++ x02 :: [xff; xff];
          SplitBinaryCarrier.TraceAttributes :=
            binary.write_int32 1
            ++ flat_map splitBinaryPropagator.writeAttr [("user", "alice")%string]
            ++ [x00] |})
    99 1000 exampleStore
  = (Return (startSpanInternal
               {| TraceID := 42; SpanID := 99; ParentSpanID := -7; Sampled := true;
                  traceAttrs := fresh (dom exampleStore) |}
               "op" 1000 []),
     <[fresh (dom exampleStore) := {[ "user"%string := "alice"%string ]}]> exampleStore).
Proof.
  apply (binary_join_layout (H := forwardRuntime false) "op" 99 1000 exampleStore
           42 (-7) x02 [xff; xff] [("user", "alice")%string] [x00]).
  - vm_compute. split; congruence.
  - vm_compute. split; congruence.
  - vm_compute. reflexivity.
  - apply userAlice_wire.
Defined.

(** X6. When the attributes buffer lists a key more than once, the map
    [JoinTrace] builds holds, under that key, the value of its last
    entry. *)
Theorem binary_join_last_entry_wins `{GoRuntime} (op : string) (newID now : Z)
    (σ : store) (t s : Z) (b : byte)
    (l1 l2 : list (string * string)) (k v : string) :
  is_intN 64 t -> is_intN 64 s ->
  Z.of_nat (length (l1 ++ (k, v) :: l2)) < 2 ^ 31 ->
  Forall wireAttr (l1 ++ (k, v) :: l2) ->
  k ∉ l2.*1 ->
  exists sp σ',
    splitBinaryPropagator.JoinTrace op
      (BinaryCarrier
         {| SplitBinaryCarrier.TracerState :=
              binary.write_int64 t ++ binary.write_int64 s ++ [b];
            SplitBinaryCarrier.TraceAttributes :=
              binary.write_int32 (Z.of_nat (length (l1 ++ (k, v) :: l2)))
              ++ flat_map splitBinaryPropagator.writeAttr (l1 ++ (k, v) :: l2) |})
      newID now σ = (Return sp, σ')
    /\ deref σ' (traceAttrs (Context sp)) !! k = Some v.
Proof.
  intros Ht Hs Hn Hl Hk. eexists _, _.
  unfold splitBinaryPropagator.JoinTrace.
  rewrite <- (app_nil_r (flat_map _ _)), decode_buffers by done.
  split; [reflexivity|]. cbn. unfold deref. rewrite lookup_insert_eq. cbn.
  rewrite fold_left_app. cbn [fold_left].
  rewrite fold_insert_keeps by done. apply lookup_insert_eq.
Qed.

Lemma binary_join_last_entry_wins_witness :
  exists sp σ',
    splitBinaryPropagator.JoinTrace (H := forwardRuntime false) "op"
      (BinaryCarrier
         {| SplitBinaryCarrier.TracerState :=
              binary.write_int64 42 ++ binary.write_int64 7 ++ [x01];
            SplitBinaryCarrier.TraceAttributes :=
              binary.write_int32 2
              ++ flat_map splitBinaryPropagator.writeAttr
                   [("user", "alice"); ("user", "bob")]%string |})
      99 1000 exampleStore = (Return sp, σ')
    /\ deref σ' (traceAttrs (Context sp)) !! "user"%string = Some "bob"%string.
Proof.
  apply (binary_join_last_entry_wins (H := forwardRuntime false) "op" 99 1000
           exampleStore 42 7 x01 [("user", "alice")%string] [] "user" "bob").
  - vm_compute. split; congruence.
  - vm_compute. split; congruence.
  - vm_compute. reflexivity.
  - repeat constructor; vm_compute; reflexivity.
  - apply not_elem_of_nil.
Defined.

(** X7. When the count of the attributes buffer is larger than the number
    of entries that follow it, [JoinTrace] runs out of bytes and returns
    [TraceCorrupted]; the store is not changed. *)
Theorem binary_join_count_too_large `{GoRuntime} (op : string) (newID now : Z)
    (σ : store) (t s : Z) (b : byte) (l : list (string * string)) (n : nat) :
  is_intN 64 t -> is_intN 64 s ->
  (length l < n)%nat -> Z.of_nat n < 2 ^ 31 -> Forall wireAttr l ->
  splitBinaryPropagator.JoinTrace op
    (BinaryCarrier
       {| SplitBinaryCarrier.TracerState :=
            binary.write_int64 t ++ binary.write_int64 s ++ [b];
          SplitBinaryCarrier.TraceAttributes :=
            binary.write_int32 (Z.of_nat n)
            ++ flat_map splitBinaryPropagator.writeAttr l |})
    newID now σ
  = (Fail TraceCorrupted, σ).
Proof.
  intros Ht Hs Hlen Hn Hl. unfold splitBinaryPropagator.JoinTrace.
  unfold splitBinaryPropagator.decode.
  cbn [SplitBinaryCarrier.TracerState SplitBinaryCarrier.TraceAttributes].
  rewrite read_int64_write by done. cbn.
  rewrite read_int64_write by done. cbn.
  rewrite read_uint8_cons. cbn.
  rewrite read_int32_write
    by (unfold is_intN; change (2 ^ (32 - 1)) with (2 ^ 31); lia).
  cbn. unfold splitBinaryPropagator.makeMap.
  destruct (Z.ltb_spec (Z.of_nat n) 0); [lia|]. cbn.
  rewrite Nat2Z.id.
  replace n with (length l + S (n - length l - 1))%nat by lia.
  rewrite <- (app_nil_r (flat_map _ _)), readAttrs_entries by done.
  reflexivity.
Qed.

Lemma binary_join_count_too_large_witness :
  splitBinaryPropagator.JoinTrace (H := forwardRuntime false) "op"
    (BinaryCarrier
       {| SplitBinaryCarrier.TracerState :=
            binary.write_int64 42 ++ binary.write_int64 7 ++ [x01];
          SplitBinaryCarrier.TraceAttributes :=
            binary.write_int32 (Z.of_nat 2)
            ++ flat_map splitBinaryPropagator.writeAttr [("user", "alice")%string] |})
    99 1000 exampleStore
  = (Fail TraceCorrupted, exampleStore).
Proof.
  apply (binary_join_count_too_large (H := forwardRuntime false) "op" 99 1000
           exampleStore 42 7 x01 [("user", "alice")%string] 2).
  - vm_compute. split; congruence.
  - vm_compute. split; congruence.
  - cbn. lia.
  - vm_compute. reflexivity.
  - apply userAlice_wire.
Defined.

(** ** Binary codec: the order of the attributes, and the size of the record *)

Lemma decode_injected_any (H0 H1 : GoRuntime) (sc : StandardContext) (σ : store) :
  is_intN 64 (TraceID sc) -> is_intN 64 (SpanID sc) ->
  wireMap (deref σ (traceAttrs sc)) ->
  splitBinaryPropagator.decode (H := H0) (injected (H := H1) sc σ)
  = Return (TraceID sc, SpanID sc, if Sampled sc then 1 else 0,
            deref σ (traceAttrs sc)).
Proof.
  intros Ht Hs Hm. unfold injected.
  cbn [splitBinaryPropagator.InjectSpan fst snd].
  rewrite len32_small by apply Hm.
  rewrite <- (rangeOrder_length (H := H1)).
  rewrite <- (app_nil_r (flat_map _ _)).
  assert (Eb : exists b : byte,
             binary.write_uint8 (if Sampled sc then 1 else 0) = [b]
             /\ Z_of_byte b = if Sampled sc then 1 else 0).
  { destruct (Sampled sc); [exists x01 | exists x00]; by vm_compute. }
  destruct Eb as (b & -> & <-).
  rewrite (decode_buffers (H := H0)); try done.
  - by rewrite (fold_insert_range (H := H1)).
  - rewrite (rangeOrder_length (H := H1)). apply Hm.
  - by apply (rangeOrder_wire (H := H1)).
Qed.

(** X8. The order in which [InjectSpan] visits the attribute map changes
    the bytes of the attributes buffer but not what [JoinTrace] returns:
    the records written under any two orders are joined to the same span
    and the same store. *)
Theorem binary_order_independent (H0 H1 H2 : GoRuntime) (sc : StandardContext)
    (σ σ0 : store) (op : string) (newID now : Z) :
  is_intN 64 (TraceID sc) -> is_intN 64 (SpanID sc) ->
  wireMap (deref σ (traceAttrs sc)) ->
  splitBinaryPropagator.JoinTrace (H := H0) op
    (BinaryCarrier (injected (H := H1) sc σ)) newID now σ0
  = splitBinaryPropagator.JoinTrace (H := H0) op
      (BinaryCarrier (injected (H := H2) sc σ)) newID now σ0.
Proof.
  intros Ht Hs Hm. unfold splitBinaryPropagator.JoinTrace.
  by rewrite !decode_injected_any.
Qed.

Definition twoAttrsStore : store :=
  {[ 1%positive := <["user"%string := "alice"%string]>
                     {[ "tenant"%string := "acme"%string ]} ]}.

Lemma twoAttrs_wire : wireMap (deref twoAttrsStore (traceAttrs exampleContext)).
Proof.
  split; [vm_compute; reflexivity|].
  assert (E : map_to_list (deref twoAttrsStore (traceAttrs exampleContext))
              = [("user", "alice"); ("tenant", "acme")]%string)
    by (vm_compute; reflexivity).
  rewrite E. repeat constructor; vm_compute; reflexivity.
Qed.

Lemma binary_order_independent_witness :
  SplitBinaryCarrier.TraceAttributes
    (injected (H := forwardRuntime false) exampleContext twoAttrsStore)
  <> SplitBinaryCarrier.TraceAttributes
       (injected (H := reverseRuntime false) exampleContext twoAttrsStore)
  /\ splitBinaryPropagator.JoinTrace (H := forwardRuntime false) "op"
       (BinaryCarrier (injected (H := forwardRuntime false) exampleContext twoAttrsStore))
       99 1000 ∅
     = splitBinaryPropagator.JoinTrace (H := forwardRuntime false) "op"
         (BinaryCarrier (injected (H := reverseRuntime false) exampleContext twoAttrsStore))
         99 1000 ∅.
Proof.
  split; [vm_compute; discriminate|].
  apply (binary_order_independent (forwardRuntime false) (forwardRuntime false)
           (reverseRuntime false) exampleContext twoAttrsStore ∅ "op" 99 1000);
    [apply exampleContext_ids .. | apply twoAttrs_wire].
Defined.

Lemma flat_map_length_sum {A B} (f : A -> list B) (l : list A) :
  length (flat_map f l) = sum_list_with (fun x => length (f x)) l.
Proof. induction l as [|x l IH]; [done|]. cbn. by rewrite length_app, IH. Qed.

(** X9. The record [InjectSpan] writes has a state buffer of exactly 17
    bytes, and an attributes buffer of 4 bytes plus, for every attribute, 8
    bytes and the bytes of its key and of its value; this holds for every
    context and every order of the attributes. *)
Theorem binary_inject_sizes `{GoRuntime} (sc : StandardContext) (σ : store) :
  length (SplitBinaryCarrier.TracerState (injected sc σ)) = 17%nat
  /\ length (SplitBinaryCarrier.TraceAttributes (injected sc σ))
     = (4 + sum_list_with
              (fun kv => 8 + length (list_byte_of_string kv.1)
                         + length (list_byte_of_string kv.2))
              (map_to_list (deref σ (traceAttrs sc))))%nat.
Proof.
  split; [apply injected_state_length|].
  unfold injected. cbn [splitBinaryPropagator.InjectSpan fst snd
                        SplitBinaryCarrier.TraceAttributes].
  rewrite length_app, write_int32_length, flat_map_length_sum.
  f_equal. rewrite rangeOrder_perm.
  induction (map_to_list (deref σ (traceAttrs sc))) as [|kv l IH]; [done|].
  cbn [sum_list_with]. rewrite IH, writeAttr_length. lia.
Qed.

(** ** HTTP wrapper: what [InjectSpan] does to the header *)

Section http_more.
Context `{GoRuntime}.

(** [InjectSpan] appends one value to each of the two headers and leaves
    the rest of the header as it was. *)
Lemma http_inject_adds (sc : StandardContext) (h : http.Header) (σ : store) :
  exists h',
    goHTTPPropagator.InjectSpan sc (HTTPHeader h) σ = (Return (), HTTPHeader h', σ)
    /\ h' !! http.CanonicalHeaderKey tracerStateHeaderName
       = Some (default [] (h !! http.CanonicalHeaderKey tracerStateHeaderName)
               ++ [base64.EncodeToString
                     (SplitBinaryCarrier.TracerState (injected sc σ))])
    /\ h' !! http.CanonicalHeaderKey traceAttrsHeaderName
       = Some (default [] (h !! http.CanonicalHeaderKey traceAttrsHeaderName)
               ++ [base64.EncodeToString
                     (SplitBinaryCarrier.TraceAttributes (injected sc σ))])
    /\ forall k, k ≠ http.CanonicalHeaderKey tracerStateHeaderName ->
                 k ≠ http.CanonicalHeaderKey traceAttrsHeaderName ->
                 h' !! k = h !! k.
Proof.
  eexists. split; [reflexivity|]. unfold http.Add.
  rewrite canonical_tracerState, canonical_traceAttrs.
  rewrite (lookup_insert_ne _ "Tracer-State"%string "Trace-Attributes"%string) by done.
  split; [|split].
  - rewrite lookup_insert_ne by done. by rewrite lookup_insert_eq.
  - by rewrite lookup_insert_eq.
  - intros k Hs Ha. by rewrite !lookup_insert_ne.
Qed.

End http_more.

Lemma SplitBinaryCarrier_eta (bc : SplitBinaryCarrier.t) :
  {| SplitBinaryCarrier.TracerState := SplitBinaryCarrier.TracerState bc;
     SplitBinaryCarrier.TraceAttributes := SplitBinaryCarrier.TraceAttributes bc |}
  = bc.
Proof. by destruct bc. Qed.

(** X10. For every context with [int64] identifiers and an attribute map
    the wire format can carry, [InjectSpan] of the HTTP wrapper into a
    header that has no value under the two header names, followed by
    [JoinTrace] from that header, returns a span whose context has the
    original [TraceID], [Sampled] flag and attribute map, the original
    [SpanID] as [ParentSpanID] and [newID] as [SpanID]. *)
Theorem http_roundtrip `{GoRuntime} (sc : StandardContext) (h : http.Header)
    (σ : store) (op : string) (newID now : Z) :
  noValue h tracerStateHeaderName -> noValue h traceAttrsHeaderName ->
  is_intN 64 (TraceID sc) -> is_intN 64 (SpanID sc) ->
  wireMap (deref σ (traceAttrs sc)) ->
  exists c sp σ',
    goHTTPPropagator.InjectSpan sc (HTTPHeader h) σ = (Return (), c, σ)
    /\ goHTTPPropagator.JoinTrace op c newID now σ = (Return sp, σ')
    /\ TraceID (Context sp) = TraceID sc
    /\ Sampled (Context sp) = Sampled sc
    /\ deref σ' (traceAttrs (Context sp)) = deref σ (traceAttrs sc)
    /\ ParentSpanID (Context sp) = SpanID sc
    /\ SpanID (Context sp) = newID.
Proof.
  intros Hs%noValue_default Ha%noValue_default Ht Hsp Hm.
  destruct (http_inject_adds sc h σ) as (h' & Hinj & Hs' & Ha' & _).
  rewrite Hs, Ha in *. cbn [app] in *.
  exists (HTTPHeader h'). eexists _, _. split; [done|].
  rewrite (http_join_first_values op h' newID now σ _ _ [] [] Hs' Ha').
  rewrite !base64_DecodeString_EncodeToString, SplitBinaryCarrier_eta.
  unfold splitBinaryPropagator.JoinTrace. rewrite binary_decode_injected by done.
  split; [reflexivity|]. cbn.
  repeat split; [by destruct (Sampled sc)|].
  unfold deref at 1. by rewrite lookup_insert_eq.
Qed.

Lemma http_roundtrip_witness :
  exists c sp σ',
    goHTTPPropagator.InjectSpan (H := reverseRuntime false) exampleContext
      (HTTPHeader {["Accept"%string := ["*/*"%string]]}) exampleStore
    = (Return (), c, exampleStore)
    /\ goHTTPPropagator.JoinTrace (H := reverseRuntime false) "op" c 99 1000 exampleStore
       = (Return sp, σ')
    /\ TraceID (Context sp) = 42
    /\ Sampled (Context sp) = true
    /\ deref σ' (traceAttrs (Context sp)) = {[ "user"%string := "alice"%string ]}
    /\ ParentSpanID (Context sp) = 7
    /\ SpanID (Context sp) = 99.
Proof.
  apply (http_roundtrip (H := reverseRuntime false) exampleContext
           {["Accept"%string := ["*/*"%string]]} exampleStore "op" 99 1000).
  - left. vm_compute. reflexivity.
  - left. vm_compute. reflexivity.
  - apply exampleContext_ids.
  - apply exampleContext_ids.
  - apply exampleContext_wire.
Defined.

(** X11. [InjectSpan] of the HTTP wrapper, on any header, appends the
    base64 text of the state buffer at the end of the values of
    [Tracer-State] and the base64 text of the attributes buffer at the end
    of the values of [Trace-Attributes]; the values already there and
    every other header are kept. *)
Theorem http_inject_appends `{GoRuntime} (sc : StandardContext) (h : http.Header)
    (σ : store) (k : string) :
  exists h',
    goHTTPPropagator.InjectSpan sc (HTTPHeader h) σ = (Return (), HTTPHeader h', σ)
    /\ h' !! http.CanonicalHeaderKey tracerStateHeaderName
       = Some (default [] (h !! http.CanonicalHeaderKey tracerStateHeaderName)
               ++ [base64.EncodeToString
                     (SplitBinaryCarrier.TracerState (injected sc σ))])
    /\ h' !! http.CanonicalHeaderKey traceAttrsHeaderName
       = Some (default [] (h !! http.CanonicalHeaderKey traceAttrsHeaderName)
               ++ [base64.EncodeToString
                     (SplitBinaryCarrier.TraceAttributes (injected sc σ))])
    /\ (k ≠ http.CanonicalHeaderKey tracerStateHeaderName ->
        k ≠ http.CanonicalHeaderKey traceAttrsHeaderName ->
        h' !! k = h !! k).
Proof.
  destruct (http_inject_adds sc h σ) as (h' & Hinj & Hs & Ha & Hk).
  exists h'. repeat split; try done. apply Hk.
Qed.

Definition staleHeader : http.Header :=
  <["Tracer-State"%string := ["AAAAAAAAAAEAAAAAAAAAAgA="%string]]>
    (<["Trace-Attributes"%string := ["AAAAAA=="%string]]>
       {["Accept"%string := ["*/*"%string]]}).

Lemma http_inject_appends_witness :
  exists h',
    goHTTPPropagator.InjectSpan (H := forwardRuntime false) exampleContext
      (HTTPHeader staleHeader) exampleStore = (Return (), HTTPHeader h', exampleStore)
    /\ h' !! "Tracer-State"%string
       = Some ["AAAAAAAAAAEAAAAAAAAAAgA="; "AAAAAAAAACoAAAAAAAAABwE="]%string
    /\ h' !! "Trace-Attributes"%string
       = Some ["AAAAAA=="; "AAAAAQAAAAR1c2VyAAAABWFsaWNl"]%string
    /\ h' !! "Accept"%string = Some ["*/*"%string].
Proof.
  destruct (http_inject_appends (H := forwardRuntime false) exampleContext
              staleHeader exampleStore "Accept") as (h' & Hinj & Hs & Ha & Hk).
  exists h'. split; [exact Hinj|]. split; [exact Hs|]. split; [exact Ha|].
  rewrite Hk; [vm_compute; reflexivity | vm_compute; discriminate ..].
Defined.

(** X12. A header that already has a value under both header names keeps
    its trace: after [InjectSpan] of another context into it, [JoinTrace]
    returns what it returned before the injection, so the context injected
    last is not the one that is joined. *)
Theorem http_join_after_second_inject `{GoRuntime} (sc : StandardContext)
    (h : http.Header) (σ σ0 : store) (op : string) (newID now : Z)
    (s a : string) (ss aa : list string) :
  h !! http.CanonicalHeaderKey tracerStateHeaderName = Some (s :: ss) ->
  h !! http.CanonicalHeaderKey traceAttrsHeaderName = Some (a :: aa) ->
  exists h',
    goHTTPPropagator.InjectSpan sc (HTTPHeader h) σ = (Return (), HTTPHeader h', σ)
    /\ goHTTPPropagator.JoinTrace op (HTTPHeader h') newID now σ0
       = goHTTPPropagator.JoinTrace op (HTTPHeader h) newID now σ0.
Proof.
  intros Hs Ha.
  destruct (http_inject_adds sc h σ) as (h' & Hinj & Hs' & Ha' & _).
  exists h'. split; [done|]. rewrite Hs in Hs'. rewrite Ha in Ha'.
  cbn [default from_option id app] in Hs', Ha'.
  rewrite (http_join_first_values op h' newID now σ0 _ _ _ _ Hs' Ha').
  by rewrite (http_join_first_values op h newID now σ0 _ _ _ _ Hs Ha).
Qed.

Lemma http_join_after_second_inject_witness :
  exists h',
    goHTTPPropagator.InjectSpan (H := forwardRuntime false) exampleContext
      (HTTPHeader staleHeader) exampleStore = (Return (), HTTPHeader h', exampleStore)
    /\ goHTTPPropagator.JoinTrace (H := forwardRuntime false) "op" (HTTPHeader h')
         99 1000 exampleStore
       = goHTTPPropagator.JoinTrace (H := forwardRuntime false) "op"
           (HTTPHeader staleHeader) 99 1000 exampleStore.
Proof.
  apply (http_join_after_second_inject (H := forwardRuntime false) exampleContext
           staleHeader exampleStore exampleStore "op" 99 1000
           "AAAAAAAAAAEAAAAAAAAAAgA="%string "AAAAAA=="%string [] []);
    vm_compute; reflexivity.
Defined.
